(** * CDEC data pull: fetching, earliest-date discovery, chunked collection

  A shallow embedding of [CDEC data pull.py]: [fetch_cdec],
  [find_earliest_date], [fetch_all_in_chunks] and the merge step of
  [export_station_all_time], with the properties the design document
  states about them. *)

From Stdlib Require Import String ZArith List Bool Lia Sorted Permutation PrimFloat.
Import ListNotations.
Open Scope Z_scope.

(** ** Python's [datetime.date]

  A [date] is represented by its proleptic Gregorian ordinal
  ([date.toordinal()]): day 1 is 0001-01-01.  The functions below follow
  the helpers of CPython's [datetime] module. *)

Module PyDate.

Definition date := Z.

Definition _MAXORDINAL : Z := 3652059.   (* date(9999, 12, 31).toordinal() *)

Definition _is_leap (year : Z) : bool :=
  (year mod 4 =? 0) && (negb (year mod 100 =? 0) || (year mod 400 =? 0)).

Definition _days_before_year (year : Z) : Z :=
  let y := year - 1 in
  y * 365 + y / 4 - y / 100 + y / 400.

Definition _DAYS_BEFORE_MONTH : list Z :=
  [-1; 0; 31; 59; 90; 120; 151; 181; 212; 243; 273; 304; 334].

Definition _days_before_month (year month : Z) : Z :=
  nth (Z.to_nat month) _DAYS_BEFORE_MONTH 0
  + (if (month >? 2) && _is_leap year then 1 else 0).

Definition _ymd2ord (year month day : Z) : Z :=
  _days_before_year year + _days_before_month year month + day.

(** [date(year, month, day)], for arguments that form a calendar date. *)
Definition mk (year month day : Z) : date := _ymd2ord year month day.

Definition _DI400Y : Z := 146097.
Definition _DI100Y : Z := 36524.
Definition _DI4Y : Z := 1461.

(** The year component of [_ord2ymd], that is [d.year]. *)
Definition year (d : date) : Z :=
  let n := d - 1 in
  let n400 := n / _DI400Y in
  let n := n mod _DI400Y in
  let y := n400 * 400 + 1 in
  let n100 := n / _DI100Y in
  let n := n mod _DI100Y in
  let n4 := n / _DI4Y in
  let n := n mod _DI4Y in
  let n1 := n / 365 in
  let y := y + n100 * 100 + n4 * 4 + n1 in
  if (n1 =? 4) || (n100 =? 4) then y - 1 else y.

(** [d + timedelta(days=n)]: [None] stands for the [OverflowError] raised
  when the day count does not fit a [timedelta] or the sum leaves
  [date.min .. date.max]. *)
Definition add_days (d : date) (n : Z) : option date :=
  if (Z.abs n <=? 999999999) && (1 <=? d + n) && (d + n <=? _MAXORDINAL)
  then Some (d + n) else None.

End PyDate.

Definition date : Type := PyDate.date.

(** ** Frames *)

(** A row of the frame [fetch_cdec] returns: columns [datetime] and [value].
  [datetime] is a pandas [Timestamp] as nanoseconds since the Unix epoch,
  [value] a float64. *)
Record row : Type := mkRow { datetime : Z; value : float }.

Definition frame := list row.

Definition NS_PER_DAY : Z := 86400 * 1000000000.
Definition EPOCH_ORDINAL : Z := 719163. (* date(1970, 1, 1).toordinal() *)

(** [Timestamp.date()] *)
Definition ts_date (ts : Z) : date := EPOCH_ORDINAL + ts / NS_PER_DAY.

Definition SENTINEL : float := (-9999)%float.

(** [Series.notna()] on a float column. *)
Definition notna (v : float) : bool := negb (PrimFloat.is_nan v).

(** ** The environment: pandas, the remote service, the clock *)

(** [take(indexer)]: the rows at the listed positions, in the order listed. *)
Definition take {A : Type} (l : list A) (indexer : list nat) : list A :=
  flat_map (fun i => match nth_error l i with Some x => [x] | None => [] end) indexer.

(** What the module asks of pandas.

  [cell] is what JSON decoding leaves in a column cell (a string, a number,
  a missing key, ...).

  [to_datetime] is [pd.to_datetime(column, errors="coerce")].  It works on
  the column as a whole: the format is inferred once for the column, so
  what a cell parses to depends on the other cells, and on some columns
  (timestamps with different UTC offsets) it raises whatever [errors] says.
  [None] is the exception; otherwise there is one entry per cell, [None]
  for NaT.

  [to_numeric] is [pd.to_numeric(column, errors="coerce")] on one cell: NaN
  when the cell is no number.

  [argsort] is the indexer [DataFrame.sort_values] computes from the key
  column, with the default [kind="quicksort"]: the positions [0 .. n-1] in
  an order that makes the keys ascend.  quicksort is not stable, so nothing
  is said about the order of positions holding equal keys. *)
Class Pandas : Type := {
  cell : Type;
  to_datetime : list cell -> option (list (option Z));
  to_datetime_length :
    forall col out, to_datetime col = Some out -> List.length out = List.length col;
  to_numeric : cell -> float;
  argsort : list Z -> list nat;
  argsort_perm : forall keys, Permutation (argsort keys) (seq 0 (List.length keys));
  argsort_sorted : forall keys, Sorted Z.le (take keys (argsort keys))
}.

(** ** Sorting and duplicate removal, generic in the key column *)

Section ByKey.
Context {P : Pandas} {A : Type} (key : A -> Z).

(** [df.sort_values(col)]: the rows taken in the order [argsort] gives for
  the key column.  Ascending; rows with equal keys in no particular order. *)
Definition sort_values (l : list A) : list A := take l (argsort (map key l)).

Fixpoint drop_seen (seen : list Z) (l : list A) : list A :=
  match l with
  | [] => []
  | r :: l' =>
      if existsb (Z.eqb (key r)) seen then drop_seen seen l'
      else r :: drop_seen (key r :: seen) l'
  end.

(** [df.drop_duplicates(subset=[col])], keep="first". *)
Definition drop_duplicates (l : list A) : list A := drop_seen [] l.

(** First row carrying key [t]. *)
Definition first_at (t : Z) (l : list A) : option A :=
  find (fun r => key r =? t) l.

(** All rows carrying key [t], in order. *)
Definition all_at (t : Z) (l : list A) : list A :=
  filter (fun r => key r =? t) l.

Definition ascending (a b : A) : Prop := key a <= key b.

Definition strictly_ascending (a b : A) : Prop := key a < key b.

End ByKey.

(** One element of the JSON array: the cells under keys "date" and "value". *)
Record record `{Pandas} : Type := mkRecord { raw_date : cell; raw_value : cell }.

Arguments mkRecord {_} raw_date raw_value.

(** What [urlopen] + [json.loads] give for one request: an exception, or the
  decoded array ([null] and the empty array both count as [Payload []]). *)
Inductive response `{Pandas} : Type :=
| Failed
| Payload (data : list record).

Arguments Failed {_}.
Arguments Payload {_} data.

(** The arguments every request carries unchanged. *)
Record key : Type := mkKey { station_id : string; sensor_num : Z; dur_code : string }.

Class World `{Pandas} : Type := {
  service : key -> date -> date -> response;   (* Start and End, inclusive *)
  today : date                                 (* date.today() *)
}.

(** ** Exceptions and the call trace *)

Inductive exn : Type :=
| FetchError       (* urlopen or json.loads raised *)
| ValueError       (* pd.to_datetime raised *)
| NoDataFound      (* RuntimeError("No data found for ...") *)
| OverflowError.   (* date arithmetic out of range *)

Inductive outcome (A : Type) : Type :=
| Ok (a : A)
| Raise (e : exn)
| OutOfFuel.       (* the loop has not finished within the fuel given *)

Arguments Ok {A} a.
Arguments Raise {A} e.
Arguments OutOfFuel {A}.

(** A request as the service sees it. *)
Definition request : Type := key * date * date.

(** Computations log the requests they issue, oldest first. *)
Definition M (A : Type) : Type := list request -> outcome A * list request.

Definition ret {A} (a : A) : M A := fun tr => (Ok a, tr).

Definition raise {A} (e : exn) : M A := fun tr => (Raise e, tr).

Definition out_of_fuel {A} : M A := fun tr => (OutOfFuel, tr).

Definition bind {A B} (m : M A) (k : A -> M B) : M B :=
  fun tr =>
    match m tr with
    | (Ok a, tr') => k a tr'
    | (Raise e, tr') => (Raise e, tr')
    | (OutOfFuel, tr') => (OutOfFuel, tr')
    end.

Notation "x <- m ;; k" := (bind m (fun x => k))
  (at level 61, m at next level, right associativity).

(** ** The fetcher *)

Section Fetcher.
Context `{W : World}.

(** A row of the frame after lines 30-31: both columns parsed, nothing
  dropped yet. *)
Record parsed : Type := mkParsed { p_datetime : option Z; p_value : float }.

(** The frame after lines 30-31, given the timestamps [pd.to_datetime]
  returned for the [date] column. *)
Definition with_columns (dts : list (option Z)) (data : list record) : list parsed :=
  map (fun p => mkParsed (fst p) (to_numeric (raw_value (snd p)))) (List.combine dts data).

(** Lines 30-31; [None] when [pd.to_datetime] raises. *)
Definition parse_columns (data : list record) : option (list parsed) :=
  option_map (fun dts => with_columns dts data) (to_datetime (map raw_date data)).

(** Line 33: [df["datetime"].notna() & df["value"].notna()] *)
Definition keep_notna (p : parsed) : bool :=
  match p_datetime p with Some _ => true | None => false end
  && notna (p_value p).

(** Line 34: [df["value"] != -9999] *)
Definition not_sentinel (p : parsed) : bool :=
  negb (PrimFloat.eqb (p_value p) SENTINEL).

(** Line 36: the two columns kept. Rows still carrying NaT have been
  dropped by then. *)
Definition to_row (p : parsed) : list row :=
  match p_datetime p with
  | Some ts => [mkRow ts (p_value p)]
  | None => []
  end.

(** Lines 33-34, with the column selection of line 36. *)
Definition filter_rows (df : list parsed) : list row :=
  flat_map to_row (filter not_sentinel (filter keep_notna df)).

(** Lines 27-34, with the column selection of line 36: the rows that pass
  cleaning, still in payload order; [None] when [pd.to_datetime] raises. *)
Definition cleaned_rows (data : list record) : option (list row) :=
  option_map filter_rows (parse_columns data).

(** Lines 23-36 of [fetch_cdec]: from the decoded payload to the frame.
  An empty payload returns before anything is parsed. *)
Definition clean (data : list record) : option frame :=
  match data with
  | [] => Some []
  | _ => option_map (sort_values datetime) (cleaned_rows data)
  end.

(** [fetch_cdec] has no exception handler: what [urlopen], [json.loads] or
  [pd.to_datetime] raise leaves the function. *)
Definition fetch_cdec (k : key) (start end_ : date) : M frame :=
  fun tr =>
    match service k start end_ with
    | Failed => (Raise FetchError, tr ++ [(k, start, end_)])
    | Payload data =>
        match clean data with
        | Some df => (Ok df, tr ++ [(k, start, end_)])
        | None => (Raise ValueError, tr ++ [(k, start, end_)])
        end
    end.

(** *** The cleaning steps in the words of the design document

  (a) parse the timestamp, discarding the unparsable; (b) parse the value,
  discarding the unparsable; (c) discard the sentinel.  [dts] is what
  parsing the timestamps gave. *)

Definition step_a (dts : list (option Z)) (data : list record) : list (Z * cell) :=
  flat_map (fun p => match fst p with
                     | Some ts => [(ts, raw_value (snd p))]
                     | None => []
                     end) (List.combine dts data).

Definition step_b (l : list (Z * cell)) : list row :=
  flat_map (fun p => let v := to_numeric (snd p) in
                     if PrimFloat.is_nan v then [] else [mkRow (fst p) v]) l.

Definition step_c (l : list row) : list row :=
  filter (fun r => negb (PrimFloat.eqb (value r) SENTINEL)) l.

Definition cleaning_steps_spec (dts : list (option Z)) (data : list record) : list row :=
  step_c (step_b (step_a dts data)).

(** The [i]-th record of the payload survives cleaning as row [r]. *)
Definition cleans_to (dts : list (option Z)) (data : list record) (i : nat) (r : row)
  : Prop :=
  exists rec,
    nth_error data i = Some rec
    /\ nth_error dts i = Some (Some (datetime r))
    /\ to_numeric (raw_value rec) = value r
    /\ PrimFloat.is_nan (value r) = false
    /\ PrimFloat.eqb (value r) SENTINEL = false.

(** ** The earliest-date finder *)

Definition probe_years : list Z := [1900; 1930; 1950; 1970; 1980; 1990; 2000; 2010].

(** [df["datetime"].min()] of a frame with first row [r] and further rows [rest]. *)
Definition datetime_min (r : row) (rest : frame) : Z :=
  fold_left Z.min (map datetime rest) (datetime r).

(** The first loop, lines 47-54; [None] is [earliest_found is None]. *)
Fixpoint probe (k : key) (years : list Z) : M (option date) :=
  match years with
  | [] => ret None
  | y :: years' =>
      df <- fetch_cdec k (PyDate.mk y 1 1) (PyDate.mk y 12 31) ;;
      match df with
      | [] => probe k years'
      | r :: rest => ret (Some (ts_date (datetime_min r rest)))
      end
  end.

(** The [while y > 1900] loop, lines 65-72; it returns the loop variables
  [(earliest_found, y)] as they are on exit.  Each pass lowers [y] by one,
  so [y - 1900] passes of fuel always suffice. *)
Fixpoint narrow (fuel : nat) (k : key) (y : Z) (earliest_found : date) : M (date * Z) :=
  if y >? 1900 then
    match fuel with
    | O => out_of_fuel
    | S fuel' =>
        df_prev <- fetch_cdec k (PyDate.mk (y - 1) 1 1) (PyDate.mk (y - 1) 12 31) ;;
        match df_prev with
        | [] => ret (earliest_found, y)
        | r :: rest => narrow fuel' k (y - 1) (ts_date (datetime_min r rest))
        end
    end
  else ret (earliest_found, y).

Definition find_earliest_date (k : key) : M date :=
  earliest_found <- probe k probe_years ;;
  match earliest_found with
  | None =>
      df <- fetch_cdec k (PyDate.mk 2000 1 1) today ;;
      match df with
      | [] => raise NoDataFound
      | r :: rest => ret (ts_date (datetime_min r rest))
      end
  | Some e =>
      let y := PyDate.year e in
      st <- narrow (Z.to_nat (y - 1900)) k y e ;;
      ret (fst st)
  end.

(** ** The chunked collector *)

(** The [while cur <= end_date] loop, lines 86-91, accumulating [frames]
  (the progress line printed per window is left out). *)
Fixpoint chunk_loop (fuel : nat) (k : key) (cur end_date chunk_days : Z)
    (frames : list frame) : M (list frame) :=
  if cur <=? end_date then
    match fuel with
    | O => out_of_fuel
    | S fuel' =>
        match PyDate.add_days cur chunk_days with
        | None => raise OverflowError
        | Some hi =>
            let chunk_end := Z.min hi end_date in
            df <- fetch_cdec k cur chunk_end ;;
            match PyDate.add_days chunk_end 1 with
            | None => raise OverflowError
            | Some cur' => chunk_loop fuel' k cur' end_date chunk_days (frames ++ [df])
            end
        end
    end
  else ret frames.

(** Lines 93-98: the merge of the per-window frames. *)
Definition merge_frames (frames : list frame) : frame :=
  match frames with
  | [] => []
  | _ => sort_values datetime (drop_duplicates datetime (concat frames))
  end.

Definition fetch_all_in_chunks (fuel : nat) (k : key)
    (start_date end_date : date) (chunk_days : Z) : M frame :=
  frames <- chunk_loop fuel k start_date end_date chunk_days [] ;;
  ret (merge_frames frames).

End Fetcher.

(** ** Vocabulary for statements about runs *)

Section Vocabulary.
Context `{W : World}.

(** The service answers the window and the fetcher turns the answer into [df]. *)
Definition answers (k : key) (s e : date) (df : frame) : Prop :=
  exists data, service k s e = Payload data /\ clean data = Some df.

(** [df["datetime"].min().date()], [None] on an empty frame. *)
Definition min_date (df : frame) : option date :=
  match df with
  | [] => None
  | r :: rest => Some (ts_date (datetime_min r rest))
  end.

(** [d] is the calendar day of the earliest timestamp in [df]. *)
Definition is_min_date (df : frame) (d : date) : Prop :=
  exists r, In r df /\ d = ts_date (datetime r)
            /\ forall r', In r' df -> datetime r <= datetime r'.

(** The request for the calendar year [y]. *)
Definition year_request (k : key) (y : Z) : request :=
  (k, PyDate.mk y 1 1, PyDate.mk y 12 31).

(** The [n] years before [y], latest first: [y-1, y-2, ..., y-n]. *)
Definition years_before (y : Z) (n : nat) : list Z :=
  map (fun i => y - 1 - Z.of_nat i) (seq 0 n).

(** How many times the body of the [while y > 1900] loop runs in
  [find_earliest_date]: it issues one request per run, so this is the
  number of requests after the probe phase.  The fallback path never
  enters the loop. *)
Definition narrowing_iterations (k : key) (tr : list request) : nat :=
  match probe k probe_years tr with
  | (Ok (Some _), tr1) =>
      (List.length (snd (find_earliest_date k tr)) - List.length tr1)%nat
  | _ => 0%nat
  end.

(** The request and the frame that belong to a window (no frame, taken as
  empty, when the request ends in an exception). *)
Definition request_of (k : key) (w : date * date) : request := (k, fst w, snd w).

Definition frame_of (k : key) (w : date * date) : frame :=
  match service k (fst w) (snd w) with
  | Payload data =>
      match clean data with
      | Some df => df
      | None => []
      end
  | Failed => []
  end.

(** Executable form of "the window's frame has earliest day [d]". *)
Definition min_date_isb (k : key) (s e : date) (d : date) : bool :=
  match service k s e with
  | Payload data =>
      match clean data with
      | Some df =>
          match min_date df with
          | Some d' => d' =? d
          | None => false
          end
      | None => false
      end
  | Failed => false
  end.

(** Every reading the service returns for [k] is dated inside the window
  that was asked for. *)
Definition answers_in_window (k : key) : Prop :=
  forall s e df r, answers k s e df -> In r df -> s <= ts_date (datetime r) <= e.

Definition req_start (q : request) : date := snd (fst q).

(** No request for [k] ends in an exception: the service answers every
  window and pandas parses what it sends. *)
Definition never_fails (k : key) : Prop := forall s e, exists df, answers k s e df.

(** [ws] cuts the days [lo .. hi] into consecutive windows: the first starts
  at [lo], each next one the day after the previous one ends, every window
  runs from its first day [d] through [d + chunk_days], and the last one is
  cut at [hi]. *)
Inductive partitions (chunk_days : Z) : date -> date -> list (date * date) -> Prop :=
| partitions_nil (lo hi : date) :
    hi < lo -> partitions chunk_days lo hi []
| partitions_last (lo hi : date) :
    lo <= hi -> hi <= lo + chunk_days -> partitions chunk_days lo hi [(lo, hi)]
| partitions_cons (lo hi : date) (ws : list (date * date)) :
    lo + chunk_days < hi ->
    partitions chunk_days (lo + chunk_days + 1) hi ws ->
    partitions chunk_days lo hi ((lo, lo + chunk_days) :: ws).

(** The day of a timestamp lies in the window; a reading lies in it. *)
Definition day_in (lo hi : date) (ts : Z) : bool :=
  (lo <=? ts_date ts) && (ts_date ts <=? hi).

Definition in_window (lo hi : date) (r : row) : bool := day_in lo hi (datetime r).

(** The service answers every window for [k] with exactly the readings of
  [truth] that lie inside it, in the order [truth] has them (junk rows that
  cleaning drops apart). *)
Definition serves (k : key) (truth : list row) : Prop :=
  forall s e, exists data,
    service k s e = Payload data
    /\ cleaned_rows data = Some (filter (in_window s e) truth).

(** Readings of [truth] that carry the same timestamp are the same reading. *)
Definition one_reading_per_timestamp (truth : list row) : Prop :=
  forall r r', In r truth -> In r' truth -> datetime r = datetime r' -> r = r'.

End Vocabulary.

(** ** The series combiner *)

(** A row of the merged frame: [datetime], [stage_ft], [flow_cfs]; [None] is
  the hole an outer join leaves. *)
Record combined : Type :=
  mkCombined { c_datetime : Z; stage_ft : option float; flow_cfs : option float }.

Section Combiner.
Context {P : Pandas}.

(** The rows [pd.merge(..., how="outer")] builds for join key [t]: every
  pairing of the rows of the two frames that carry [t], or the rows of one
  frame with a hole when the other has none. *)
Definition merge_key (stage flow : frame) (t : Z) : list combined :=
  match all_at datetime t stage, all_at datetime t flow with
  | [], rs => map (fun r => mkCombined t None (Some (value r))) rs
  | ls, [] => map (fun l => mkCombined t (Some (value l)) None) ls
  | ls, rs =>
      flat_map (fun l => map (fun r => mkCombined t (Some (value l)) (Some (value r))) rs) ls
  end.

(** The join keys of an outer merge: the union of both key columns, each
  key once, in ascending order. *)
Definition join_keys (stage flow : frame) : list Z :=
  sort_values (fun t => t)
    (drop_duplicates (fun t => t) (map datetime stage ++ map datetime flow)).

(** [pd.merge(stage, flow, on="datetime", how="outer")]. *)
Definition merge_outer (stage flow : frame) : list combined :=
  flat_map (merge_key stage flow) (join_keys stage flow).

(** Line 122 of [export_station_all_time]. *)
Definition combine (stage flow : frame) : list combined :=
  sort_values c_datetime (merge_outer stage flow).

(** The combined row for timestamp [t]: each field is the value of the
  input's reading at [t], absent if the input has none. *)
Definition joined (stage flow : frame) (t : Z) : combined :=
  mkCombined t (option_map value (first_at datetime t stage))
               (option_map value (first_at datetime t flow)).

End Combiner.

Section ExportStation.
Context `{W : World}.

(** [export_station_all_time], up to the frames it writes out:
  [(combined, stage, flow)]. *)
Definition export_station_all_time (fuel : nat) (station : string)
  : M (list combined * frame * frame) :=
  let dur := "E"%string in
  earliest_stage <- find_earliest_date (mkKey station 1 dur) ;;
  earliest_flow <- find_earliest_date (mkKey station 20 dur) ;;
  let start_date := Z.min earliest_stage earliest_flow in
  stage <- fetch_all_in_chunks fuel (mkKey station 1 dur) start_date today 365 ;;
  flow <- fetch_all_in_chunks fuel (mkKey station 20 dur) start_date today 365 ;;
  ret (combine stage flow, stage, flow).

End ExportStation.

(** ** Vocabulary for statements about the request log *)

Section RunLogic.
Context `{W : World}.

Definition req_key (q : request) : key := fst (fst q).

(** The service answered request [q] (possibly with an empty array). *)
Definition answered (q : request) : Prop :=
  service (fst (fst q)) (snd (fst q)) (snd q) <> Failed.

(** [m] only appends requests to the log, and each of them satisfies [P]. *)
Definition logs {A : Type} (P : request -> Prop) (m : M A) : Prop :=
  forall tr, exists reqs, snd (m tr) = tr ++ reqs /\ Forall P reqs.

(** What a run leaves in the log when it stops at the first failed request:
  if it ends in [FetchError] the failed request is the last one issued and
  every earlier one was answered; otherwise every request was answered. *)
Definition stopped_at_failure {A : Type} (res : outcome A) (reqs : list request) : Prop :=
  match res with
  | Raise FetchError =>
      exists pre q, reqs = pre ++ [q] /\ Forall answered pre /\ ~ answered q
  | _ => Forall answered reqs
  end.

Definition fail_stop {A : Type} (m : M A) : Prop :=
  forall tr, exists reqs, snd (m tr) = tr ++ reqs /\ stopped_at_failure (fst (m tr)) reqs.

(** The requests [export_station_all_time] may issue for [station]. *)
Definition export_request (station : string) (q : request) : Prop :=
  station_id (req_key q) = station
  /\ dur_code (req_key q) = "E"%string
  /\ (sensor_num (req_key q) = 1 \/ sensor_num (req_key q) = 20).

End RunLogic.

(** * Properties *)

(** ** Taking rows by position *)

Section TakeFacts.
Context {A : Type}.

Lemma take_reordered (l : list A) (idx idx' : list nat) :
  Permutation idx idx' -> Permutation (take l idx) (take l idx').
Proof. intros Hp. unfold take. now apply Permutation_flat_map. Qed.

Lemma take_all_from (pre l : list A) :
  take (pre ++ l) (seq (List.length pre) (List.length l)) = l.
Proof.
  revert pre. induction l as [|x l IH]; intros pre; [reflexivity|].
  cbn [List.length seq]. unfold take. cbn [flat_map]. fold (take (pre ++ x :: l)).
  rewrite nth_error_app2, Nat.sub_diag by apply le_n. cbn [nth_error app]. f_equal.
  specialize (IH (pre ++ [x])).
  rewrite <- app_assoc, length_app, Nat.add_1_r in IH. exact IH.
Qed.

Lemma take_all (l : list A) : take l (seq 0 (List.length l)) = l.
Proof. exact (take_all_from [] l). Qed.

Lemma take_map {B : Type} (f : A -> B) (l : list A) (idx : list nat) :
  take (map f l) idx = map f (take l idx).
Proof.
  unfold take. induction idx as [|i idx IH]; [reflexivity|].
  cbn [flat_map]. rewrite map_app, IH, nth_error_map.
  now destruct (nth_error l i).
Qed.

End TakeFacts.

(** ** Sorting and duplicate removal *)

Section ByKeyFacts.
Context {P : Pandas} {A : Type} (key : A -> Z).

Lemma sort_values_perm (l : list A) : Permutation (sort_values key l) l.
Proof.
  unfold sort_values.
  transitivity (take l (seq 0 (List.length l))); [|now rewrite take_all].
  apply take_reordered. rewrite <- (length_map key l). apply argsort_perm.
Qed.

Lemma sort_values_nil : sort_values key [] = [].
Proof. apply Permutation_nil. symmetry. apply sort_values_perm. Qed.

Lemma sort_values_In (l : list A) (x : A) : In x (sort_values key l) <-> In x l.
Proof.
  split; apply Permutation_in; [|symmetry]; apply sort_values_perm.
Qed.

Lemma sorted_keys (l : list A) :
  Sorted Z.le (map key l) -> Sorted (ascending key) l.
Proof.
  induction l as [|x l IH]; cbn [map]; intros Hs; [constructor|].
  inversion Hs as [|? ? Hs' Hhd]; subst. constructor; [now apply IH|].
  destruct l as [|y l]; constructor. now inversion Hhd.
Qed.

Lemma sort_values_sorted (l : list A) : Sorted (ascending key) (sort_values key l).
Proof.
  apply sorted_keys. unfold sort_values. rewrite <- take_map. apply argsort_sorted.
Qed.

Lemma first_at_app (t : Z) (l1 l2 : list A) :
  first_at key t (l1 ++ l2)
  = match first_at key t l1 with Some r => Some r | None => first_at key t l2 end.
Proof.
  unfold first_at. induction l1 as [|x l1 IH]; cbn [app find]; [reflexivity|].
  destruct (key x =? t); [reflexivity|exact IH].
Qed.

Lemma first_at_Some (t : Z) (l : list A) (r : A) :
  first_at key t l = Some r -> In r l /\ key r = t.
Proof.
  unfold first_at. intros H. apply find_some in H. now rewrite Z.eqb_eq in H.
Qed.

Lemma first_at_None (t : Z) (l : list A) :
  first_at key t l = None -> forall x, In x l -> key x <> t.
Proof.
  unfold first_at. intros H x Hx E.
  apply (find_none _ _ H) in Hx. apply Z.eqb_neq in Hx. contradiction.
Qed.

Lemma first_at_absent (t : Z) (l : list A) :
  (forall x, In x l -> key x <> t) -> first_at key t l = None.
Proof.
  unfold first_at. induction l as [|x l IH]; intros H; cbn [find]; [reflexivity|].
  destruct (Z.eqb_spec (key x) t) as [E|_].
  - exfalso. apply (H x); [now left|exact E].
  - apply IH. intros y Hy. apply H. now right.
Qed.

Lemma first_at_unique (l : list A) (r : A) :
  NoDup (map key l) -> In r l -> first_at key (key r) l = Some r.
Proof.
  unfold first_at. induction l as [|x l IH]; cbn [map find In]; intros Hnd Hin; [easy|].
  inversion Hnd as [|? ? Hx Hnd']; subst.
  destruct Hin as [->|Hin]; [now rewrite Z.eqb_refl|].
  destruct (Z.eqb_spec (key x) (key r)) as [E|_]; [|now apply IH].
  exfalso. apply Hx. rewrite E. now apply in_map.
Qed.

(** Where rows with one key are one row, the row found at a key does not
  depend on the order of the rows. *)
Lemma first_at_agree (t : Z) (l l' : list A) :
  Permutation l l' ->
  (forall r r', In r l -> In r' l -> key r = key r' -> r = r') ->
  first_at key t l' = first_at key t l.
Proof.
  intros Hp Hone.
  destruct (first_at key t l) as [r|] eqn:E.
  - apply first_at_Some in E. destruct E as [Hr Hk].
    destruct (first_at key t l') as [r'|] eqn:E'.
    + apply first_at_Some in E'. destruct E' as [Hr' Hk'].
      f_equal. apply Hone; [|exact Hr|congruence].
      now apply (Permutation_in _ (Permutation_sym Hp)).
    + exfalso. apply (first_at_None t l' E' r); [|exact Hk].
      now apply (Permutation_in _ Hp).
  - apply first_at_absent. intros x Hx.
    apply (first_at_None t l E). now apply (Permutation_in _ (Permutation_sym Hp)).
Qed.

Lemma NoDup_keys_agree (l : list A) :
  NoDup (map key l) -> forall r r', In r l -> In r' l -> key r = key r' -> r = r'.
Proof.
  intros Hnd r r' Hr Hr' E.
  pose proof (first_at_unique l r Hnd Hr) as E1.
  pose proof (first_at_unique l r' Hnd Hr') as E2.
  rewrite E in E1. congruence.
Qed.

(** In particular where every key occurs once. *)
Lemma first_at_any_order (t : Z) (l l' : list A) :
  Permutation l l' -> NoDup (map key l) -> first_at key t l' = first_at key t l.
Proof.
  intros Hp Hnd. apply first_at_agree; [exact Hp|now apply NoDup_keys_agree].
Qed.

(** Sorting rows whose keys are all different moves no row away from its key. *)
Lemma first_at_sort_values (t : Z) (l : list A) :
  NoDup (map key l) -> first_at key t (sort_values key l) = first_at key t l.
Proof.
  intros Hnd. apply first_at_any_order; [|exact Hnd].
  symmetry. apply sort_values_perm.
Qed.

Lemma existsb_eqb_In (t : Z) (seen : list Z) :
  existsb (Z.eqb t) seen = true <-> In t seen.
Proof.
  rewrite existsb_exists. split.
  - intros [x [Hx E]]. apply Z.eqb_eq in E. now subst.
  - intros H. exists t. split; [exact H|apply Z.eqb_refl].
Qed.

(** Duplicate removal keeps, for each key, the first row carrying it. *)
Lemma first_at_drop_seen (t : Z) (l : list A) :
  forall seen,
  first_at key t (drop_seen key seen l)
  = if existsb (Z.eqb t) seen then None else first_at key t l.
Proof.
  induction l as [|r l IH]; intros seen; cbn [drop_seen].
  - unfold first_at. cbn. now destruct (existsb _ seen).
  - destruct (existsb (Z.eqb (key r)) seen) eqn:Er.
    + rewrite IH. destruct (existsb (Z.eqb t) seen) eqn:Et; [reflexivity|].
      unfold first_at. cbn [find]. destruct (Z.eqb_spec (key r) t) as [E|_]; [|reflexivity].
      rewrite E in Er. congruence.
    + unfold first_at at 1. cbn [find]. fold (first_at key t (drop_seen key (key r :: seen) l)).
      rewrite IH. cbn [existsb]. unfold first_at at 2. cbn [find].
      destruct (Z.eqb_spec (key r) t) as [E|Hne].
      * rewrite <- E, Er. reflexivity.
      * destruct (Z.eqb_spec t (key r)); [congruence|]. reflexivity.
Qed.

Lemma first_at_drop_duplicates (t : Z) (l : list A) :
  first_at key t (drop_duplicates key l) = first_at key t l.
Proof. unfold drop_duplicates. now rewrite first_at_drop_seen. Qed.

Lemma drop_seen_keys (l : list A) :
  forall seen,
  NoDup (map key (drop_seen key seen l))
  /\ (forall x, In x (drop_seen key seen l) -> In x l /\ ~ In (key x) seen).
Proof.
  induction l as [|r l IH]; intros seen; cbn [drop_seen].
  - split; [constructor|intros x []].
  - destruct (existsb (Z.eqb (key r)) seen) eqn:Er.
    + destruct (IH seen) as [Hnd Hin]. split; [exact Hnd|].
      intros x Hx. destruct (Hin x Hx). split; [now right|assumption].
    + destruct (IH (key r :: seen)) as [Hnd Hin]. split.
      * cbn [map]. constructor; [|exact Hnd].
        intros Hr. apply in_map_iff in Hr. destruct Hr as [x [E Hx]].
        destruct (Hin x Hx) as [_ Hns]. apply Hns. left. congruence.
      * intros x [Hx|Hx].
        -- subst x. split; [now left|]. intros Hs.
           apply existsb_eqb_In in Hs. congruence.
        -- destruct (Hin x Hx) as [Hxl Hns]. split; [now right|].
           intros Hs. apply Hns. now right.
Qed.

Lemma drop_duplicates_NoDup (l : list A) : NoDup (map key (drop_duplicates key l)).
Proof. apply drop_seen_keys. Qed.

Lemma sorted_NoDup_strict (l : list A) :
  Sorted (ascending key) l -> NoDup (map key l) ->
  StronglySorted (strictly_ascending key) l.
Proof.
  intros Hs. apply Sorted_StronglySorted in Hs.
  2:{ intros a b c. unfold ascending. lia. }
  induction Hs as [|a l Hs IH Hall]; intros Hnd; [constructor|].
  cbn [map] in Hnd. inversion Hnd as [|? ? Hna Hnd']; subst.
  constructor; [now apply IH|].
  rewrite Forall_forall in *. intros x Hx. specialize (Hall x Hx).
  unfold ascending, strictly_ascending in *.
  assert (key a <> key x) by (intros E; apply Hna; rewrite E; now apply in_map).
  lia.
Qed.

(** Removing duplicates and then sorting leaves strictly increasing keys. *)
Lemma sort_drop_strict (l : list A) :
  StronglySorted (strictly_ascending key) (sort_values key (drop_duplicates key l)).
Proof.
  apply sorted_NoDup_strict; [apply sort_values_sorted|].
  eapply Permutation_NoDup; [|apply drop_duplicates_NoDup].
  apply Permutation_map. symmetry. apply sort_values_perm.
Qed.

Lemma strict_NoDup (l : list A) :
  StronglySorted (strictly_ascending key) l -> NoDup (map key l).
Proof.
  induction 1 as [|a l Hs IH Hall]; cbn [map]; constructor; [|exact IH].
  intros Hin. apply in_map_iff in Hin. destruct Hin as [x [E Hx]].
  rewrite Forall_forall in Hall. specialize (Hall x Hx).
  unfold strictly_ascending in Hall. lia.
Qed.

(** A frame with strictly increasing keys is determined by the row it
  holds at each key. *)
Lemma strict_ext (l1 : list A) :
  forall l2,
  StronglySorted (strictly_ascending key) l1 ->
  StronglySorted (strictly_ascending key) l2 ->
  (forall t, first_at key t l1 = first_at key t l2) ->
  l1 = l2.
Proof.
  induction l1 as [|a l1 IH]; intros l2 H1 H2 Hext.
  - destruct l2 as [|b l2]; [reflexivity|].
    specialize (Hext (key b)). unfold first_at in Hext. cbn [find] in Hext.
    rewrite Z.eqb_refl in Hext. discriminate.
  - destruct l2 as [|b l2].
    + specialize (Hext (key a)). unfold first_at in Hext. cbn [find] in Hext.
      rewrite Z.eqb_refl in Hext. discriminate.
    + inversion H1 as [|? ? H1' Ha]; subst. inversion H2 as [|? ? H2' Hb]; subst.
      rewrite Forall_forall in Ha, Hb. unfold strictly_ascending in Ha, Hb.
      assert (Hka : key a = key b).
      { pose proof (Hext (key a)) as Ea. pose proof (Hext (key b)) as Eb.
        unfold first_at in Ea, Eb. cbn [find] in Ea, Eb.
        rewrite Z.eqb_refl in Ea, Eb.
        destruct (Z.eqb_spec (key b) (key a)) as [E|Hne]; [now symmetry|].
        destruct (Z.eqb_spec (key a) (key b)) as [E|_]; [assumption|].
        symmetry in Ea. apply find_some in Ea. destruct Ea as [Ea _].
        apply find_some in Eb. destruct Eb as [Eb _].
        specialize (Ha _ Eb). specialize (Hb _ Ea). lia. }
      assert (Hab : a = b).
      { pose proof (Hext (key a)) as Ea. unfold first_at in Ea. cbn [find] in Ea.
        rewrite Z.eqb_refl in Ea. rewrite <- Hka, Z.eqb_refl in Ea. congruence. }
      subst b. f_equal. apply IH; [assumption..|].
      intros t. specialize (Hext t). unfold first_at in Hext |- *. cbn [find] in Hext.
      destruct (Z.eqb_spec (key a) t) as [E|_]; [|exact Hext].
      subst t. clear Hext.
      fold (first_at key (key a) l1). fold (first_at key (key a) l2).
      rewrite !first_at_absent; [reflexivity| |].
      * intros x Hx. specialize (Hb x Hx). lia.
      * intros x Hx. specialize (Ha x Hx). lia.
Qed.

(** Two such frames with the same rows are the same frame. *)
Lemma strict_same_rows (l1 l2 : list A) :
  StronglySorted (strictly_ascending key) l1 ->
  StronglySorted (strictly_ascending key) l2 ->
  (forall x, In x l1 <-> In x l2) -> l1 = l2.
Proof.
  intros H1 H2 Hin. apply strict_ext; [exact H1|exact H2|].
  assert (Hone : forall la lb, NoDup (map key lb) ->
            (forall x, In x la -> In x lb) ->
            forall t r, first_at key t la = Some r -> first_at key t lb = Some r).
  { intros la lb Hb Hsub t r E. apply first_at_Some in E. destruct E as [Hr <-].
    apply first_at_unique; auto. }
  intros t. pose proof (strict_NoDup _ H1) as N1. pose proof (strict_NoDup _ H2) as N2.
  destruct (first_at key t l1) as [r|] eqn:E1.
  - symmetry. apply (Hone l1 l2); auto. intros x. apply Hin.
  - destruct (first_at key t l2) as [r|] eqn:E2; [|reflexivity].
    apply (Hone l2 l1) in E2; auto; [congruence|]. intros x. apply Hin.
Qed.

(** Dropping duplicates and sorting leaves a frame with strictly
  increasing keys as it is; so does sorting alone. *)
Lemma sort_drop_strict_id (l : list A) :
  StronglySorted (strictly_ascending key) l ->
  sort_values key (drop_duplicates key l) = l.
Proof.
  intros Hs. apply strict_ext; [apply sort_drop_strict|exact Hs|].
  intros t. rewrite first_at_sort_values by apply drop_duplicates_NoDup.
  apply first_at_drop_duplicates.
Qed.

Lemma sort_strict_id (l : list A) :
  StronglySorted (strictly_ascending key) l -> sort_values key l = l.
Proof.
  intros Hs. pose proof (strict_NoDup _ Hs) as Hnd.
  apply strict_ext; [|exact Hs|intros t; now apply first_at_sort_values].
  apply sorted_NoDup_strict; [apply sort_values_sorted|].
  eapply Permutation_NoDup; [apply Permutation_map; symmetry; apply sort_values_perm|].
  exact Hnd.
Qed.

End ByKeyFacts.

(** ** The fetcher *)

Section FetcherFacts.
Context `{W : World}.

Lemma In_combine_nth_error {X Y : Type} (xs : list X) (ys : list Y) (x : X) (y : Y) :
  In (x, y) (List.combine xs ys)
  <-> exists i, nth_error xs i = Some x /\ nth_error ys i = Some y.
Proof.
  revert ys. induction xs as [|x0 xs IH]; intros ys; cbn [List.combine].
  - split; [intros []|]. intros [[|i] [E _]]; discriminate E.
  - destruct ys as [|y0 ys].
    + split; [intros []|]. intros [[|i] [_ E]]; discriminate E.
    + cbn [In]. rewrite IH. split.
      * intros [E|[i Hi]]; [inversion E; subst; now exists 0%nat|now exists (S i)].
      * intros [[|i] [Ex Ey]]; cbn [nth_error] in Ex, Ey.
        -- left. congruence.
        -- right. now exists i.
Qed.

(** Lines 33-34 keep what the steps of the design document keep, in the
  same order. *)
Lemma filter_rows_spec (dts : list (option Z)) (data : list record) :
  filter_rows (with_columns dts data) = cleaning_steps_spec dts data.
Proof.
  unfold filter_rows, with_columns, cleaning_steps_spec, step_a.
  induction (List.combine dts data) as [|[d rec] ps IH]; [reflexivity|].
  cbn [map filter flat_map fst snd].
  unfold step_c, step_b in *. rewrite flat_map_app, filter_app, <- IH. clear IH.
  generalize (filter keep_notna
                (map (fun p => mkParsed (fst p) (to_numeric (raw_value (snd p)))) ps)).
  intros rest.
  unfold keep_notna, notna. cbn [p_datetime p_value].
  destruct d as [ts|]; cbn [andb flat_map app fst snd filter]; [|reflexivity].
  destruct (PrimFloat.is_nan (to_numeric (raw_value rec))) eqn:Enan;
    cbn [negb filter app]; [reflexivity|].
  unfold not_sentinel at 1. cbn [p_value value].
  destruct (PrimFloat.eqb (to_numeric (raw_value rec)) SENTINEL);
    cbn [negb flat_map app]; [reflexivity|].
  unfold to_row at 1. cbn [p_datetime p_value]. reflexivity.
Qed.

Lemma cleaned_rows_spec (data : list record) (dts : list (option Z)) :
  to_datetime (map raw_date data) = Some dts ->
  cleaned_rows data = Some (cleaning_steps_spec dts data).
Proof.
  intros E. unfold cleaned_rows, parse_columns. rewrite E. cbn [option_map].
  now rewrite filter_rows_spec.
Qed.

Lemma cleaned_rows_raises (data : list record) :
  to_datetime (map raw_date data) = None -> cleaned_rows data = None.
Proof. intros E. unfold cleaned_rows, parse_columns. now rewrite E. Qed.

Lemma In_spec_rows (dts : list (option Z)) (data : list record) (r : row) :
  In r (cleaning_steps_spec dts data) <-> exists i, cleans_to dts data i r.
Proof.
  unfold cleaning_steps_spec, step_c, step_b, step_a, cleans_to.
  rewrite filter_In, in_flat_map. split.
  - intros [[[ts c] [Hin Hb]] Hs]. apply in_flat_map in Hin.
    destruct Hin as [[d rec] [Hp Ha]]. cbn [fst snd] in Ha.
    destruct d as [ts'|]; [|contradiction].
    destruct Ha as [Ha|[]]. inversion Ha; subst ts' c. cbn [fst snd] in Hb.
    destruct (PrimFloat.is_nan (to_numeric (raw_value rec))) eqn:Enan; [contradiction|].
    destruct Hb as [Hb|[]]. subst r. cbn [datetime value] in *.
    apply In_combine_nth_error in Hp. destruct Hp as [i [Hd Hrec]].
    exists i, rec. repeat split; auto.
    now apply negb_true_iff.
  - intros [i [rec [Hrec [Hts [Hv [Hnan Hsent]]]]]]. split.
    + exists (datetime r, raw_value rec). split.
      * apply in_flat_map. exists (Some (datetime r), rec). split; [|now left].
        apply In_combine_nth_error. now exists i.
      * cbn [fst snd]. rewrite Hv, Hnan. left. now destruct r.
    + now rewrite Hsent.
Qed.

(** What [clean] returns, when it returns. *)
Lemma clean_Some (data : list record) (df : frame) :
  clean data = Some df ->
  exists rows, df = sort_values datetime rows
               /\ (data = [] /\ rows = []
                   \/ data <> [] /\ cleaned_rows data = Some rows).
Proof.
  destruct data as [|r0 data0]; cbn [clean].
  - intros E. inversion E. exists []. split; [|now left].
    now rewrite sort_values_nil.
  - destruct (cleaned_rows (r0 :: data0)) as [rows|]; cbn [option_map]; intros E;
      inversion E. exists rows. split; [reflexivity|]. right. now split.
Qed.

Lemma clean_sorted (data : list record) (df : frame) :
  clean data = Some df -> Sorted (ascending datetime) df.
Proof.
  intros E. apply clean_Some in E. destruct E as [rows [-> _]]. apply sort_values_sorted.
Qed.

(** A frame [clean] returns holds the rows that pass cleaning, each as
  often as the payload has it. *)
Lemma clean_rows (data : list record) (df rows : frame) :
  clean data = Some df -> cleaned_rows data = Some rows -> Permutation df rows.
Proof.
  intros E Hrows. apply clean_Some in E. destruct E as [rows' [-> [[-> ->]|[_ E]]]].
  - unfold cleaned_rows, parse_columns in Hrows. cbn [map] in Hrows.
    destruct (to_datetime []) as [dts|]; [|discriminate].
    cbn [option_map] in Hrows. inversion Hrows as [Hr].
    unfold with_columns. destruct dts; cbn; apply sort_values_perm.
  - rewrite E in Hrows. inversion Hrows; subst. apply sort_values_perm.
Qed.

(** Every row of a frame [clean] returns carries a number that is not the
  sentinel. *)
Lemma clean_values (data : list record) (df : frame) (r : row) :
  clean data = Some df -> In r df ->
  PrimFloat.is_nan (value r) = false /\ PrimFloat.eqb (value r) SENTINEL = false.
Proof.
  intros E Hin. apply clean_Some in E. destruct E as [rows [-> [[_ ->]|[_ E]]]];
    apply sort_values_In in Hin; [destruct Hin|].
  unfold cleaned_rows, parse_columns in E.
  destruct (to_datetime (map raw_date data)) as [dts|]; [|discriminate].
  cbn [option_map] in E. inversion E; subst rows. rewrite filter_rows_spec in Hin.
  apply In_spec_rows in Hin. destruct Hin as [i [rec [_ [_ [_ [Hnan Hsent]]]]]].
  now split.
Qed.

(** How a call of [fetch_cdec] can end. *)
Lemma fetch_cdec_cases (k : key) (s e : date) (tr : list request) :
  (service k s e = Failed
   /\ fetch_cdec k s e tr = (Raise FetchError, tr ++ [(k, s, e)]))
  \/ (exists data, service k s e = Payload data /\ clean data = None
        /\ fetch_cdec k s e tr = (Raise ValueError, tr ++ [(k, s, e)]))
  \/ (exists data df, service k s e = Payload data /\ clean data = Some df
        /\ fetch_cdec k s e tr = (Ok df, tr ++ [(k, s, e)])).
Proof.
  unfold fetch_cdec. destruct (service k s e) as [|data]; [now left|right].
  destruct (clean data) as [df|] eqn:E; [right|left].
  - now exists data, df.
  - now exists data.
Qed.

(** C1. Cleaning is not free of errors: [fetch_cdec] passes the whole
  [date] column to [pd.to_datetime], and when that call raises (it does on
  a column of timestamps with different UTC offsets, whatever [errors]
  says) no row is dropped and no frame is returned: the exception leaves
  [fetch_cdec], the request having been made. *)
Theorem fetch_cdec_cleaning_can_raise (k : key) (start end_ : date) (data : list record)
    (tr : list request) :
  service k start end_ = Payload data ->
  data <> [] ->
  to_datetime (map raw_date data) = None ->
  fetch_cdec k start end_ tr = (Raise ValueError, tr ++ [(k, start, end_)])
  /\ forall out tr', fetch_cdec k start end_ tr <> (Ok out, tr').
Proof.
  intros Hsvc Hne Hraise.
  assert (Hrun : fetch_cdec k start end_ tr = (Raise ValueError, tr ++ [(k, start, end_)])).
  { unfold fetch_cdec. rewrite Hsvc.
    destruct data as [|r0 data0]; [congruence|]. cbn [clean].
    now rewrite (cleaned_rows_raises _ Hraise). }
  split; [exact Hrun|]. intros out tr'. rewrite Hrun. discriminate.
Qed.

(** X13. Whenever [pd.to_datetime] returns for the [date] column,
  [fetch_cdec] returns normally and its frame holds exactly the rows the
  cleaning steps keep: those whose timestamp came out a timestamp, whose
  value is a number and not -9999, each as often as the payload has it,
  sorted ascending by timestamp.  The rows kept before sorting are those of
  steps (a), (b), (c) of the design document, in payload order. *)
Theorem fetch_cdec_cleaned_frame (k : key) (start end_ : date) (data : list record)
    (dts : list (option Z)) (tr : list request) :
  service k start end_ = Payload data ->
  to_datetime (map raw_date data) = Some dts ->
  exists out,
    fetch_cdec k start end_ tr = (Ok out, tr ++ [(k, start, end_)])
    /\ cleaned_rows data = Some (cleaning_steps_spec dts data)
    /\ Permutation out (cleaning_steps_spec dts data)
    /\ (forall r, In r out <-> exists i, cleans_to dts data i r)
    /\ Sorted (ascending datetime) out.
Proof.
  intros Hsvc Hdts. pose proof (cleaned_rows_spec data dts Hdts) as Hrows.
  assert (Hclean : exists out, clean data = Some out).
  { destruct data as [|r0 data0]; cbn [clean]; [now exists []|].
    rewrite Hrows. cbn [option_map]. eauto. }
  destruct Hclean as [out Hclean]. exists out.
  pose proof (clean_rows data out _ Hclean Hrows) as Hperm.
  split; [unfold fetch_cdec; now rewrite Hsvc, Hclean|].
  split; [exact Hrows|]. split; [exact Hperm|]. split.
  - intros r. rewrite <- In_spec_rows. split; apply Permutation_in;
      [|symmetry]; exact Hperm.
  - now apply (clean_sorted data).
Qed.

End FetcherFacts.

(** ** Calendar facts *)

Module PyDateFacts.
Import PyDate.

Lemma days_before_next_year (y : Z) :
  _days_before_year (y + 1) = _days_before_year y + 365 + (if _is_leap y then 1 else 0).
Proof.
  unfold _days_before_year, _is_leap. cbv zeta.
  replace (y + 1 - 1) with y by lia.
  assert (H4 : y / 4 = (y - 1) / 4 + (if y mod 4 =? 0 then 1 else 0)).
  { destruct (Z.eqb_spec (y mod 4) 0); Z.div_mod_to_equations; lia. }
  assert (H100 : y / 100 = (y - 1) / 100 + (if y mod 100 =? 0 then 1 else 0)).
  { destruct (Z.eqb_spec (y mod 100) 0); Z.div_mod_to_equations; lia. }
  assert (H400 : y / 400 = (y - 1) / 400 + (if y mod 400 =? 0 then 1 else 0)).
  { destruct (Z.eqb_spec (y mod 400) 0); Z.div_mod_to_equations; lia. }
  assert (Ha : y mod 100 = 0 -> y mod 4 = 0).
  { intros E. rewrite (Z.div_mod y 100) by lia. rewrite E.
    replace (100 * (y / 100) + 0) with ((25 * (y / 100)) * 4) by lia. apply Z_mod_mult. }
  assert (Hb : y mod 400 = 0 -> y mod 100 = 0).
  { intros E. rewrite (Z.div_mod y 400) by lia. rewrite E.
    replace (400 * (y / 400) + 0) with ((4 * (y / 400)) * 100) by lia. apply Z_mod_mult. }
  rewrite H4, H100, H400.
  destruct (Z.eqb_spec (y mod 4) 0), (Z.eqb_spec (y mod 100) 0),
    (Z.eqb_spec (y mod 400) 0); cbn [andb orb negb]; lia.
Qed.

Lemma mk_jan1 (y : Z) : mk y 1 1 = _days_before_year y + 1.
Proof.
  unfold mk, _ymd2ord.
  change (_days_before_month y 1) with (0 + 0). lia.
Qed.

Lemma mk_dec31 (y : Z) : mk y 12 31 = _days_before_year (y + 1).
Proof.
  rewrite days_before_next_year. unfold mk, _ymd2ord.
  change (_days_before_month y 12) with (334 + (if _is_leap y then 1 else 0)).
  destruct (_is_leap y); lia.
Qed.

Lemma year_between (y : Z) (d : date) :
  _days_before_year y < d <= _days_before_year (y + 1) -> year d = y.
Proof.
  unfold _days_before_year, year, _DI400Y, _DI100Y, _DI4Y. cbv zeta.
  replace (y + 1 - 1) with y by lia.
  intros H.
  destruct (Z.eqb_spec ((d - 1) mod 146097 mod 36524 mod 1461 / 365) 4);
    destruct (Z.eqb_spec ((d - 1) mod 146097 / 36524) 4); cbn [orb];
    Z.div_mod_to_equations; lia.
Qed.

(** A day between January 1 and December 31 of year [y] has [.year == y]. *)
Lemma year_in_window (y : Z) (d : date) :
  mk y 1 1 <= d <= mk y 12 31 -> year d = y.
Proof.
  rewrite mk_jan1, mk_dec31. intros H. apply year_between. lia.
Qed.

Lemma add_days_Some (d n d' : Z) :
  add_days d n = Some d' -> d' = d + n /\ 1 <= d' <= _MAXORDINAL.
Proof.
  unfold add_days.
  destruct (Z.leb_spec (Z.abs n) 999999999); cbn [andb]; [|discriminate].
  destruct (Z.leb_spec 1 (d + n)); cbn [andb]; [|discriminate].
  destruct (Z.leb_spec (d + n) _MAXORDINAL); [|discriminate].
  intros E. inversion E. lia.
Qed.

Lemma add_days_ok (d n : Z) :
  Z.abs n <= 999999999 -> 1 <= d + n <= _MAXORDINAL -> add_days d n = Some (d + n).
Proof.
  intros Hn Hd. unfold add_days.
  destruct (Z.leb_spec (Z.abs n) 999999999); [|lia].
  destruct (Z.leb_spec 1 (d + n)); [|lia].
  destruct (Z.leb_spec (d + n) _MAXORDINAL); [reflexivity|lia].
Qed.

End PyDateFacts.

(** ** The earliest-date finder *)

Section FinderFacts.
Context `{W : World}.

Lemma fetch_cdec_answers (k : key) (s e : date) (df : frame) (tr : list request) :
  answers k s e df -> fetch_cdec k s e tr = (Ok df, tr ++ [(k, s, e)]).
Proof.
  intros [data [Hsvc Hdf]]. unfold fetch_cdec. rewrite Hsvc, Hdf. reflexivity.
Qed.

Lemma fetch_cdec_Ok (k : key) (s e : date) (df : frame) (tr tr' : list request) :
  fetch_cdec k s e tr = (Ok df, tr') -> answers k s e df /\ tr' = tr ++ [(k, s, e)].
Proof.
  unfold fetch_cdec, answers.
  destruct (service k s e) as [|data]; [intros E; discriminate E|].
  destruct (clean data) as [df0|] eqn:Ec; intros E; inversion E; subst.
  split; [|reflexivity]. now exists data.
Qed.

Lemma answers_fun (k : key) (s e : date) (df df' : frame) :
  answers k s e df -> answers k s e df' -> df = df'.
Proof.
  intros [d [H1 H2]] [d' [H1' H2']]. rewrite H1 in H1'. inversion H1'. congruence.
Qed.

Lemma fold_min_spec (l : list Z) (m : Z) :
  (fold_left Z.min l m = m \/ In (fold_left Z.min l m) l)
  /\ fold_left Z.min l m <= m
  /\ (forall y, In y l -> fold_left Z.min l m <= y).
Proof.
  revert m. induction l as [|a l IH]; intros m; cbn [fold_left].
  - split; [now left|]. split; [lia|]. intros y [].
  - destruct (IH (Z.min m a)) as [Hin [Hle Hall]].
    split; [|split].
    + destruct Hin as [Hin|Hin]; [|right; now right].
      rewrite Hin. destruct (Z.min_spec m a) as [[_ E]|[_ E]]; rewrite E; auto.
      right. now left.
    + lia.
    + intros y [Hy|Hy]; [subst; lia|now apply Hall].
Qed.

(** [min_date] does return the day of the earliest reading. *)
Lemma min_date_spec (df : frame) (d : date) :
  min_date df = Some d -> is_min_date df d.
Proof.
  destruct df as [|r rest]; [discriminate|]. cbn [min_date]. intros E. inversion E.
  unfold datetime_min.
  destruct (fold_min_spec (map datetime rest) (datetime r)) as [Hin [Hle Hall]].
  assert (Hex : exists r0, In r0 (r :: rest)
            /\ datetime r0 = fold_left Z.min (map datetime rest) (datetime r)).
  { destruct Hin as [Hin|Hin].
    - exists r. split; [now left|]. now rewrite Hin.
    - apply in_map_iff in Hin. destruct Hin as [r0 [E0 Hr0]].
      exists r0. split; [now right|exact E0]. }
  destruct Hex as [r0 [Hr0 E0]]. exists r0. rewrite E0. repeat split; auto.
  intros r' [Hr'|Hr']; [subst; exact Hle|]. apply Hall. now apply in_map.
Qed.

Lemma min_date_None (df : frame) : min_date df = None <-> df = [].
Proof. destruct df; cbn [min_date]; split; congruence. Qed.

(** The probe phase on anchors that all come back empty. *)
Lemma probe_all_empty (k : key) (years : list Z) (tr : list request) :
  (forall y, In y years -> answers k (PyDate.mk y 1 1) (PyDate.mk y 12 31) []) ->
  probe k years tr = (Ok None, tr ++ map (year_request k) years).
Proof.
  revert tr. induction years as [|y years IH]; intros tr Hall; cbn [probe map].
  - unfold ret. now rewrite app_nil_r.
  - unfold bind. rewrite (fetch_cdec_answers _ _ _ []) by (apply Hall; now left).
    rewrite IH by (intros; apply Hall; now right).
    now rewrite <- app_assoc.
Qed.

(** The probe phase stops at the first anchor that has data. *)
Lemma probe_first_hit (k : key) (y : Z) (years : list Z) (df : frame) (d : date)
    (tr : list request) :
  answers k (PyDate.mk y 1 1) (PyDate.mk y 12 31) df ->
  min_date df = Some d ->
  probe k (y :: years) tr = (Ok (Some d), tr ++ [year_request k y]).
Proof.
  intros Hans Hmin. cbn [probe]. unfold bind. rewrite (fetch_cdec_answers _ _ _ df) by exact Hans.
  destruct df as [|r rest]; [discriminate|]. cbn [min_date] in Hmin.
  inversion Hmin. reflexivity.
Qed.

(** C5. When all eight anchor probes come back empty, [find_earliest_date]
  issues exactly one more request, for [2000-01-01 .. today].  If that
  frame is empty too it raises the "No data found" error; otherwise it
  returns the day of that frame's earliest reading at once: the narrowing
  loop is not entered and no further request is made. *)
Theorem find_earliest_fallback (k : key) (tr : list request) (df : frame) :
  (forall y, In y probe_years -> answers k (PyDate.mk y 1 1) (PyDate.mk y 12 31) []) ->
  answers k (PyDate.mk 2000 1 1) today df ->
  let tr' := tr ++ map (year_request k) probe_years ++ [(k, PyDate.mk 2000 1 1, today)] in
  (df = [] -> find_earliest_date k tr = (Raise NoDataFound, tr'))
  /\ (df <> [] -> exists d, find_earliest_date k tr = (Ok d, tr')
                            /\ min_date df = Some d /\ is_min_date df d)
  /\ narrowing_iterations k tr = 0%nat.
Proof.
  intros Hempty Hfb tr'. subst tr'.
  assert (Hprobe := probe_all_empty k probe_years tr Hempty).
  unfold narrowing_iterations. rewrite Hprobe.
  unfold find_earliest_date, bind. rewrite Hprobe.
  rewrite (fetch_cdec_answers _ _ _ df) by exact Hfb.
  rewrite <- app_assoc.
  repeat split.
  - intros ->. reflexivity.
  - intros Hne. destruct df as [|r rest]; [congruence|].
    eexists. split; [reflexivity|]. split; [reflexivity|].
    now apply min_date_spec.
Qed.

Lemma years_before_S (y : Z) (n : nat) :
  years_before y (S n) = (y - 1) :: years_before (y - 1) n.
Proof.
  unfold years_before. cbn [seq map]. f_equal; [lia|].
  rewrite <- seq_shift, map_map. apply map_ext. intros i. lia.
Qed.

(** The narrowing loop over years that all have data: it walks down to
  1900, one request per year, and ends with the earliest day of the 1900
  frame. *)
Lemma narrow_all_nonempty (k : key) (mins : Z -> date) (n : nat) :
  forall (y : Z) (e : date) (tr : list request),
  y = 1900 + Z.of_nat n ->
  (forall y', 1900 <= y' < y ->
     exists df, answers k (PyDate.mk y' 1 1) (PyDate.mk y' 12 31) df
                /\ min_date df = Some (mins y')) ->
  narrow n k y e tr
  = (Ok (match n with O => e | S _ => mins 1900 end, 1900),
     tr ++ map (year_request k) (years_before y n)).
Proof.
  induction n as [|n IH]; intros y e tr Hy Hdata.
  - cbn [narrow]. replace (y >? 1900) with false by lia.
    unfold ret, years_before. cbn [seq map]. rewrite app_nil_r. now replace y with 1900 by lia.
  - cbn [narrow]. replace (y >? 1900) with true by lia.
    destruct (Hdata (y - 1)) as [df [Hans Hmin]]; [lia|].
    unfold bind. rewrite (fetch_cdec_answers _ _ _ df) by exact Hans.
    destruct df as [|r rest]; [discriminate|].
    cbn [min_date] in Hmin. inversion Hmin as [Hm]. rewrite Hm.
    rewrite (IH (y - 1) (mins (y - 1))) by (try lia; intros; apply Hdata; lia).
    rewrite years_before_S. cbn [map]. rewrite <- app_assoc. cbn [app].
    f_equal. f_equal. destruct n; [|reflexivity].
    f_equal. f_equal. lia.
Qed.

(** The loop never needs more fuel than the years down to 1900. *)
Lemma narrow_leaves_1900 (k : key) (e : date) (tr : list request) (fuel : nat) :
  forall y, y <= 1900 -> narrow fuel k y e tr = (Ok (e, y), tr).
Proof.
  intros y Hy. destruct fuel; cbn [narrow]; now replace (y >? 1900) with false by lia.
Qed.

Lemma narrow_enough_fuel (k : key) (fuel : nat) :
  forall y e tr,
  (Z.to_nat (y - 1900) <= fuel)%nat -> fst (narrow fuel k y e tr) <> OutOfFuel.
Proof.
  induction fuel as [|fuel IH]; intros y e tr Hfuel; cbn [narrow];
    destruct (Z.gtb_spec y 1900) as [Hgt|Hle]; try discriminate; try lia.
  unfold bind.
  destruct (fetch_cdec_cases k (PyDate.mk (y - 1) 1 1) (PyDate.mk (y - 1) 12 31) tr)
    as [[_ ->]|[[data [_ [_ ->]]]|[data [df [_ [_ ->]]]]]]; try discriminate.
  destruct df as [|r rest]; [discriminate|]. apply IH. lia.
Qed.

(** [find_earliest_date] always comes to an end: it returns a day or raises. *)
Lemma find_earliest_date_total (k : key) (tr : list request) :
  fst (find_earliest_date k tr) <> OutOfFuel.
Proof.
  unfold find_earliest_date, bind.
  assert (Hprobe : forall years tr0, fst (probe k years tr0) <> OutOfFuel).
  { induction years as [|y years IH]; intros tr0; cbn [probe]; [discriminate|].
    unfold bind.
    destruct (fetch_cdec_cases k (PyDate.mk y 1 1) (PyDate.mk y 12 31) tr0)
      as [[_ ->]|[[data [_ [_ ->]]]|[data [df [_ [_ ->]]]]]]; try discriminate.
    destruct df; [apply IH|discriminate]. }
  specialize (Hprobe probe_years tr).
  destruct (probe k probe_years tr) as [[[e|]| |] tr0]; cbn [fst] in *; try congruence;
    try discriminate.
  - pose proof (narrow_enough_fuel k (Z.to_nat (PyDate.year e - 1900)) (PyDate.year e) e tr0
                  (le_n _)) as Hn.
    destruct (narrow _ k (PyDate.year e) e tr0) as [[st| |] tr1]; cbn [fst] in *;
      try congruence; discriminate.
  - destruct (fetch_cdec_cases k (PyDate.mk 2000 1 1) today tr0)
      as [[_ ->]|[[data [_ [_ ->]]]|[data [df [_ [_ ->]]]]]]; try discriminate.
    destruct df; discriminate.
Qed.

(** C4, as the code has it.  Take a service with data in every calendar
  year from 1900 through 1970, the earliest day of each year's frame being
  [mins y], strictly decreasing towards 1900, [mins 1970] being
  1970-06-01, and the 1900 frame's earliest day lying in 1900.  The coarse
  probe tries 1900 first and that anchor already has data, so
  [find_earliest_date] issues that single request, runs the narrowing loop
  zero times and returns [mins 1900], the earliest day actually observed in
  the 1900 window.  The narrowing loop itself, entered at [y = 1970],
  would run exactly 70 times (one request per year 1969, ..., 1900), leave
  at [y = 1900] and end with that same day. *)
Theorem find_earliest_all_years_back (k : key) (mins : Z -> date) (tr : list request) :
  (forall y, 1900 <= y <= 1970 ->
     exists df, answers k (PyDate.mk y 1 1) (PyDate.mk y 12 31) df
                /\ min_date df = Some (mins y)) ->
  mins 1970 = PyDate.mk 1970 6 1 ->
  (forall y, 1900 <= y < 1970 -> mins y < mins (y + 1)) ->
  PyDate.mk 1900 1 1 <= mins 1900 <= PyDate.mk 1900 12 31 ->
  find_earliest_date k tr = (Ok (mins 1900), tr ++ [year_request k 1900])
  /\ narrowing_iterations k tr = 0%nat
  /\ (forall tr0,
        narrow 70 k 1970 (mins 1970) tr0
        = (Ok (mins 1900, 1900), tr0 ++ map (year_request k) (years_before 1970 70))
        /\ List.length (years_before 1970 70) = 70%nat).
Proof.
  intros Hdata H1970 Hdec H1900.
  destruct (Hdata 1900) as [df [Hans Hmin]]; [lia|].
  assert (Hprobe : probe k probe_years tr = (Ok (Some (mins 1900)), tr ++ [year_request k 1900])).
  { unfold probe_years. now apply probe_first_hit with (df := df). }
  assert (Hyear : PyDate.year (mins 1900) = 1900)
    by now apply PyDateFacts.year_in_window.
  assert (Hrun : find_earliest_date k tr = (Ok (mins 1900), tr ++ [year_request k 1900])).
  { unfold find_earliest_date, bind. rewrite Hprobe, Hyear.
    rewrite narrow_leaves_1900 by lia. reflexivity. }
  split; [exact Hrun|]. split.
  - unfold narrowing_iterations. rewrite Hprobe, Hrun. cbn [snd]. lia.
  - intros tr0. split; [|unfold years_before; now rewrite length_map, length_seq].
    apply (narrow_all_nonempty k mins 70); [reflexivity|].
    intros y' Hy'. apply Hdata. lia.
Qed.

(** With a service that keeps to the window, the probe phase can only
  report a day of the anchor year it stopped at. *)
Lemma probe_hit_year (k : key) (years : list Z) :
  answers_in_window k ->
  forall tr e0 tr0,
  probe k years tr = (Ok (Some e0), tr0) -> In (PyDate.year e0) years.
Proof.
  intros Hwin. induction years as [|y years IH]; intros tr e0 tr0; cbn [probe].
  - unfold ret. intros E. inversion E.
  - unfold bind.
    destruct (fetch_cdec k (PyDate.mk y 1 1) (PyDate.mk y 12 31) tr) as [[df| |] tr1] eqn:Ef;
      try (intros E; discriminate E).
    apply fetch_cdec_Ok in Ef. destruct Ef as [Hans _].
    destruct df as [|r rest].
    + intros E. right. eapply IH. exact E.
    + unfold ret. intros E. inversion E; subst. left. symmetry.
      apply PyDateFacts.year_in_window.
      destruct (min_date_spec (r :: rest) _ eq_refl) as [r0 [Hin [Hd _]]].
      rewrite Hd. eapply Hwin; eauto.
Qed.

(** What the narrowing loop guarantees on exit, for a service that keeps to
  the window: [earliest_found] is a day of year [y], and if [y] is still
  above 1900 the last request was for year [y - 1] and came back empty. *)
Lemma narrow_exit (k : key) :
  answers_in_window k ->
  forall fuel y e tr d yf tr',
  1900 <= y -> PyDate.year e = y ->
  narrow fuel k y e tr = (Ok (d, yf), tr') ->
  PyDate.year d = yf
  /\ (1900 < yf ->
      exists tr'', tr' = tr'' ++ [year_request k (yf - 1)]
                   /\ answers k (PyDate.mk (yf - 1) 1 1) (PyDate.mk (yf - 1) 12 31) []).
Proof.
  intros Hwin. induction fuel as [|fuel IH]; intros y e tr d yf tr' Hy He; cbn [narrow];
    destruct (Z.gtb_spec y 1900) as [Hgt|Hle];
    try (unfold ret; intros E; inversion E; subst; split; [reflexivity|lia]).
  - unfold out_of_fuel. intros E. discriminate E.
  - unfold bind.
    destruct (fetch_cdec k (PyDate.mk (y - 1) 1 1) (PyDate.mk (y - 1) 12 31) tr)
      as [[df| |] tr1] eqn:Ef; try (intros E; discriminate E).
    apply fetch_cdec_Ok in Ef. destruct Ef as [Hans ->].
    destruct df as [|r rest].
    + unfold ret. intros E. inversion E; subst. split; [reflexivity|].
      intros _. exists tr. split; [reflexivity|exact Hans].
    + apply IH; [lia|].
      apply PyDateFacts.year_in_window.
      destruct (min_date_spec (r :: rest) _ eq_refl) as [r0 [Hin [Hd _]]].
      rewrite Hd. eapply Hwin; eauto.
Qed.

(** C10, as the code has it.  With a service that returns, for a window,
  only readings dated inside that window: whenever [find_earliest_date]
  returns a day [d] found through an anchor year (not the fallback) and
  [d]'s year is above 1900, the last request issued was for the whole
  calendar year before [d]'s year, and it came back empty.  So the day
  returned is minimal at year granularity: the year before it was looked
  at and holds no data.  The code itself never compares the dates it
  receives with the window it asked for. *)
Theorem find_earliest_predecessor_empty (k : key) (tr tr0 tr' : list request)
    (e0 d : date) :
  answers_in_window k ->
  probe k probe_years tr = (Ok (Some e0), tr0) ->
  find_earliest_date k tr = (Ok d, tr') ->
  1900 < PyDate.year d ->
  exists tr'',
    tr' = tr'' ++ [year_request k (PyDate.year d - 1)]
    /\ answers k (PyDate.mk (PyDate.year d - 1) 1 1) (PyDate.mk (PyDate.year d - 1) 12 31) [].
Proof.
  intros Hwin Hprobe Hrun Hd.
  assert (Hanchor := probe_hit_year k probe_years Hwin _ _ _ Hprobe).
  unfold find_earliest_date, bind in Hrun. rewrite Hprobe in Hrun.
  destruct (narrow _ k (PyDate.year e0) e0 tr0) as [[[d' yf]| |] tr1] eqn:En;
    try discriminate Hrun.
  unfold ret in Hrun. cbn [fst] in Hrun. inversion Hrun; subst d' tr1.
  assert (H1900 : 1900 <= PyDate.year e0).
  { unfold probe_years in Hanchor. cbn [In] in Hanchor. lia. }
  destruct (narrow_exit k Hwin _ _ _ _ _ _ _ H1900 eq_refl En) as [Hyf Hlast].
  rewrite Hyf in *. now apply Hlast.
Qed.

Lemma min_date_isb_true (k : key) (s e d : date) :
  min_date_isb k s e d = true ->
  exists df, answers k s e df /\ min_date df = Some d.
Proof.
  unfold min_date_isb, answers. destruct (service k s e) as [|data]; [discriminate|].
  destruct (clean data) as [df|] eqn:Ec; [|discriminate].
  destruct (min_date df) as [d'|] eqn:Em; [|discriminate].
  intros E. apply Z.eqb_eq in E. subst d'. exists df. split; [|exact Em].
  now exists data.
Qed.

End FinderFacts.

Lemma Z_range_forallb (P : Z -> bool) (lo : Z) (n : nat) :
  forallb P (map (fun i => lo + Z.of_nat i) (seq 0 n)) = true ->
  forall y, lo <= y < lo + Z.of_nat n -> P y = true.
Proof.
  intros H y Hy. rewrite forallb_forall in H. apply H.
  apply in_map_iff. exists (Z.to_nat (y - lo)). split; [lia|].
  apply in_seq. lia.
Qed.

(** ** The chunked collector *)

Section CollectorFacts.
Context `{W : World}.

Lemma never_fails_answers (k : key) (s e : date) :
  never_fails k -> answers k s e (frame_of k (s, e)).
Proof.
  intros Hnf. destruct (Hnf s e) as [df [data [Hsvc Hc]]].
  exists data. split; [exact Hsvc|].
  unfold frame_of. cbn [fst snd]. now rewrite Hsvc, Hc.
Qed.

Lemma chunk_loop_past_end (fuel : nat) (k : key) (cur hi cd : Z)
    (frames : list frame) (tr : list request) :
  hi < cur -> chunk_loop fuel k cur hi cd frames tr = (Ok frames, tr).
Proof.
  intros Hlt. destruct fuel; cbn [chunk_loop]; now replace (cur <=? hi) with false by lia.
Qed.

Lemma partitions_past_end (cd lo hi : Z) (ws : list (date * date)) :
  0 <= cd -> hi < lo -> partitions cd lo hi ws -> ws = [].
Proof. intros Hcd Hlt Hp. inversion Hp; subst; [reflexivity|lia|lia]. Qed.

Lemma partitions_step (cd lo hi : Z) (ws : list (date * date)) :
  0 <= cd -> lo <= hi ->
  partitions cd (Z.min (lo + cd) hi + 1) hi ws ->
  partitions cd lo hi ((lo, Z.min (lo + cd) hi) :: ws).
Proof.
  intros Hcd Hle Hp. destruct (Z.min_spec (lo + cd) hi) as [[Hlt E]|[Hge E]]; rewrite E in *.
  - now apply partitions_cons.
  - apply partitions_past_end in Hp; [|lia..]. subst ws. apply partitions_last; lia.
Qed.

(** With a healthy service and dates far from [date.max], the loop runs to
  completion and its requests are exactly a partition of [cur .. hi]. *)
Lemma chunk_loop_run (k : key) (hi cd : Z) :
  0 <= cd -> hi + cd <= PyDate._MAXORDINAL -> hi + 1 <= PyDate._MAXORDINAL ->
  never_fails k ->
  forall fuel cur frames tr,
  1 <= cur -> (Z.to_nat (hi - cur + 1) <= fuel)%nat ->
  exists ws,
    partitions cd cur hi ws
    /\ chunk_loop fuel k cur hi cd frames tr
       = (Ok (frames ++ map (frame_of k) ws), tr ++ map (request_of k) ws).
Proof.
  intros Hcd Hmax Hmax1 Hnf.
  unfold PyDate._MAXORDINAL in *.
  induction fuel as [|fuel IH]; intros cur frames tr Hcur Hfuel.
  - exists []. split; [apply partitions_nil; lia|].
    rewrite chunk_loop_past_end by lia. cbn [map]. now rewrite !app_nil_r.
  - destruct (Z.leb_spec cur hi) as [Hle|Hgt].
    2:{ exists []. split; [apply partitions_nil; lia|].
        rewrite chunk_loop_past_end by lia. cbn [map]. now rewrite !app_nil_r. }
    cbn [chunk_loop]. replace (cur <=? hi) with true by lia.
    rewrite PyDateFacts.add_days_ok by (unfold PyDate._MAXORDINAL; lia).
    cbv zeta. unfold bind.
    rewrite (fetch_cdec_answers _ _ _ _ _ (never_fails_answers k cur _ Hnf)).
    rewrite PyDateFacts.add_days_ok by (unfold PyDate._MAXORDINAL; lia).
    destruct (IH (Z.min (cur + cd) hi + 1)
                (frames ++ [frame_of k (cur, Z.min (cur + cd) hi)])
                (tr ++ [(k, cur, Z.min (cur + cd) hi)])) as [ws [Hp Hrun]]; [lia..|].
    exists ((cur, Z.min (cur + cd) hi) :: ws). split.
    + now apply partitions_step.
    + etransitivity; [exact Hrun|]. cbn [map]. unfold request_of at 2. cbn [fst snd].
      now rewrite <- !app_assoc.
Qed.

(** More fuel never changes a run that has finished. *)
Lemma chunk_loop_more_fuel (k : key) (hi cd : Z) :
  forall fuel fuel' cur frames tr out tr',
  (fuel <= fuel')%nat -> out <> OutOfFuel ->
  chunk_loop fuel k cur hi cd frames tr = (out, tr') ->
  chunk_loop fuel' k cur hi cd frames tr = (out, tr').
Proof.
  induction fuel as [|fuel IH]; intros fuel' cur frames tr out tr' Hle Hout.
  - cbn [chunk_loop]. destruct (Z.leb_spec cur hi) as [Hc|Hc].
    + unfold out_of_fuel. intros E. inversion E. congruence.
    + intros E. rewrite chunk_loop_past_end by lia. exact E.
  - destruct fuel' as [|fuel']; [lia|]. cbn [chunk_loop].
    destruct (cur <=? hi); [|auto].
    destruct (PyDate.add_days cur cd) as [hi'|]; [|auto].
    cbv zeta. unfold bind.
    destruct (fetch_cdec k cur (Z.min hi' hi) tr) as [[df| |] tr1]; auto.
    destruct (PyDate.add_days (Z.min hi' hi) 1) as [cur'|]; [|auto].
    apply IH; [lia|exact Hout].
Qed.

(** For a non-negative [chunk_days] the loop finishes: every pass moves
  the cursor forward, so there are at most [hi - cur + 1] passes. *)
Lemma chunk_loop_bounded (k : key) (hi cd : Z) :
  0 <= cd ->
  forall fuel cur frames tr,
  (Z.to_nat (hi - cur + 1) <= fuel)%nat ->
  exists out reqs,
    chunk_loop fuel k cur hi cd frames tr = (out, tr ++ reqs)
    /\ out <> OutOfFuel
    /\ (List.length reqs <= Z.to_nat (hi - cur + 1))%nat
    /\ Forall (fun q => cur <= req_start q) reqs
    /\ StronglySorted (fun a b => req_start a < req_start b) reqs.
Proof.
  intros Hcd. induction fuel as [|fuel IH]; intros cur frames tr Hfuel.
  - exists (Ok frames), []. rewrite chunk_loop_past_end by lia. rewrite app_nil_r.
    repeat split; try constructor; try discriminate. cbn. lia.
  - destruct (Z.leb_spec cur hi) as [Hle|Hgt].
    2:{ exists (Ok frames), []. rewrite chunk_loop_past_end by lia. rewrite app_nil_r.
        repeat split; try constructor; try discriminate. cbn. lia. }
    cbn [chunk_loop]. replace (cur <=? hi) with true by lia.
    destruct (PyDate.add_days cur cd) as [hi'|] eqn:Eadd.
    2:{ exists (Raise OverflowError), []. unfold raise. rewrite app_nil_r.
        repeat split; try constructor; try discriminate. cbn. lia. }
    apply PyDateFacts.add_days_Some in Eadd. destruct Eadd as [-> _].
    cbv zeta. unfold bind.
    set (chunk_end := Z.min (cur + cd) hi).
    assert (Hend : cur <= chunk_end <= hi) by (unfold chunk_end; lia).
    assert (Hone : forall out, out <> @OutOfFuel (list frame) ->
              exists out0 reqs,
                (out, tr ++ [(k, cur, chunk_end)]) = (out0, tr ++ reqs)
                /\ out0 <> OutOfFuel
                /\ (List.length reqs <= Z.to_nat (hi - cur + 1))%nat
                /\ Forall (fun q => cur <= req_start q) reqs
                /\ StronglySorted (fun a b => req_start a < req_start b) reqs).
    { intros out Hout. exists out, [(k, cur, chunk_end)].
      repeat split; auto.
      - cbn. lia.
      - constructor; [cbn; lia|constructor].
      - repeat constructor. }
    destruct (fetch_cdec_cases k cur chunk_end tr)
      as [[_ ->]|[[data [_ [_ ->]]]|[data [df [_ [_ ->]]]]]].
    { apply Hone. discriminate. }
    { apply Hone. discriminate. }
    destruct (PyDate.add_days chunk_end 1) as [cur'|] eqn:Eadd.
    2:{ apply Hone. discriminate. }
    apply PyDateFacts.add_days_Some in Eadd. destruct Eadd as [-> _].
    destruct (IH (chunk_end + 1) (frames ++ [df]) (tr ++ [(k, cur, chunk_end)]))
      as [out [reqs [Hrun [Hout [Hlen [Hfrom Hsorted]]]]]]; [lia|].
    exists out, ((k, cur, chunk_end) :: reqs).
    split; [etransitivity; [exact Hrun|]; now rewrite <- app_assoc|].
    repeat split; auto.
    + cbn [List.length]. lia.
    + constructor; [cbn; lia|].
      eapply Forall_impl; [|exact Hfrom]. cbn beta. intros; lia.
    + constructor; [exact Hsorted|].
      eapply Forall_impl; [|exact Hfrom]. cbn. intros; lia.
Qed.

Lemma fetch_all_in_chunks_unfold (fuel : nat) (k : key) (s e cd : Z) (tr : list request) :
  fetch_all_in_chunks fuel k s e cd tr
  = match chunk_loop fuel k s e cd [] tr with
    | (Ok frames, tr') => (Ok (merge_frames frames), tr')
    | (Raise x, tr') => (Raise x, tr')
    | (OutOfFuel, tr') => (OutOfFuel, tr')
    end.
Proof. reflexivity. Qed.

(** C9. For every start date, end date and [chunk_days >= 0] the window
  loop of [fetch_all_in_chunks] finishes (with a frame or an exception)
  after at most [end - start + 1] window fetches: each pass sets the cursor
  to [chunk_end + 1], strictly later than before, so the windows requested
  start on strictly increasing days.  Any fuel from that bound on gives the
  same run. *)
Theorem fetch_all_in_chunks_terminates (k : key) (start_date end_date chunk_days : Z)
    (tr : list request) :
  0 <= chunk_days ->
  exists out reqs,
    out <> OutOfFuel
    /\ (List.length reqs <= Z.to_nat (end_date - start_date + 1))%nat
    /\ StronglySorted (fun a b => req_start a < req_start b) reqs
    /\ forall fuel, (Z.to_nat (end_date - start_date + 1) <= fuel)%nat ->
         fetch_all_in_chunks fuel k start_date end_date chunk_days tr = (out, tr ++ reqs).
Proof.
  intros Hcd.
  destruct (chunk_loop_bounded k end_date chunk_days Hcd
              (Z.to_nat (end_date - start_date + 1)) start_date [] tr (le_n _))
    as [out [reqs [Hrun [Hout [Hlen [_ Hsorted]]]]]].
  exists (match out with
          | Ok frames => Ok (merge_frames frames)
          | Raise x => Raise x
          | OutOfFuel => OutOfFuel
          end), reqs.
  split; [destruct out; congruence|]. split; [exact Hlen|]. split; [exact Hsorted|].
  intros fuel Hfuel. rewrite fetch_all_in_chunks_unfold.
  rewrite (chunk_loop_more_fuel k end_date chunk_days _ fuel _ _ _ _ _ Hfuel Hout Hrun).
  now destruct out.
Qed.

(** With [chunk_days = -1] the cursor comes back to where it was: the loop
  asks for the same inverted window again and again. *)
Lemma chunk_loop_minus_one (k : key) (cur hi : Z) (df : frame) :
  1 < cur <= hi -> cur <= PyDate._MAXORDINAL ->
  answers k cur (cur - 1) df ->
  forall fuel frames tr,
  chunk_loop fuel k cur hi (-1) frames tr
  = (OutOfFuel, tr ++ repeat (k, cur, cur - 1) fuel).
Proof.
  intros Hcur Hmax Hans. unfold PyDate._MAXORDINAL in Hmax.
  induction fuel as [|fuel IH]; intros frames tr; cbn [chunk_loop repeat];
    replace (cur <=? hi) with true by lia.
  - unfold out_of_fuel. now rewrite app_nil_r.
  - rewrite PyDateFacts.add_days_ok by (unfold PyDate._MAXORDINAL; lia).
    cbv zeta. replace (Z.min (cur + -1) hi) with (cur - 1) by lia.
    unfold bind. rewrite (fetch_cdec_answers _ _ _ df) by exact Hans.
    rewrite PyDateFacts.add_days_ok by (unfold PyDate._MAXORDINAL; lia).
    replace (cur - 1 + 1) with cur by lia.
    rewrite IH, <- app_assoc. reflexivity.
Qed.

(** The loop only ever adds requests to the log. *)
Lemma chunk_loop_trace_grows (k : key) (hi cd : Z) :
  forall fuel cur frames tr,
  exists reqs, snd (chunk_loop fuel k cur hi cd frames tr) = tr ++ reqs.
Proof.
  induction fuel as [|fuel IH]; intros cur frames tr; cbn [chunk_loop];
    destruct (cur <=? hi); try (exists []; cbn; now rewrite app_nil_r).
  destruct (PyDate.add_days cur cd) as [hi'|]; [|exists []; cbn; now rewrite app_nil_r].
  cbv zeta. unfold bind.
  destruct (fetch_cdec_cases k cur (Z.min hi' hi) tr)
    as [[_ ->]|[[data [_ [_ ->]]]|[data [df [_ [_ ->]]]]]];
    try (now exists [(k, cur, Z.min hi' hi)]).
  destruct (PyDate.add_days (Z.min hi' hi) 1) as [cur'|];
    [|now exists [(k, cur, Z.min hi' hi)]].
  destruct (IH cur' (frames ++ [df]) (tr ++ [(k, cur, Z.min hi' hi)])) as [reqs Hr].
  exists ((k, cur, Z.min hi' hi) :: reqs).
  etransitivity; [exact Hr|]. now rewrite <- app_assoc.
Qed.

(** The only exceptions the loop can end in are those of a fetch (the
  request failed, or pandas raised on the payload) and a date out of
  range. *)
Lemma chunk_loop_raises (k : key) (hi cd : Z) :
  forall fuel cur frames tr x tr',
  chunk_loop fuel k cur hi cd frames tr = (Raise x, tr') ->
  x = FetchError \/ x = ValueError \/ x = OverflowError.
Proof.
  induction fuel as [|fuel IH]; intros cur frames tr x tr'; cbn [chunk_loop];
    destruct (cur <=? hi); try (intros E; discriminate E).
  destruct (PyDate.add_days cur cd) as [hi'|].
  2:{ unfold raise. intros E. inversion E. auto. }
  cbv zeta. unfold bind.
  destruct (fetch_cdec_cases k cur (Z.min hi' hi) tr)
    as [[_ ->]|[[data [_ [_ ->]]]|[data [df [_ [_ ->]]]]]];
    try solve [intros E; inversion E; auto].
  destruct (PyDate.add_days (Z.min hi' hi) 1) as [cur'|].
  - apply IH.
  - unfold raise. intros E. inversion E. auto.
Qed.



Lemma merge_frames_eq (frames : list frame) :
  merge_frames frames
  = sort_values datetime (drop_duplicates datetime (List.concat frames)).
Proof. destruct frames; [|reflexivity]. cbn. now rewrite sort_values_nil. Qed.

Lemma merge_frames_strict (frames : list frame) :
  StronglySorted (strictly_ascending datetime) (merge_frames frames).
Proof. rewrite merge_frames_eq. apply sort_drop_strict. Qed.

Lemma merge_frames_first_at (frames : list frame) (t : Z) :
  first_at datetime t (merge_frames frames) = first_at datetime t (List.concat frames).
Proof.
  rewrite merge_frames_eq, first_at_sort_values by apply drop_duplicates_NoDup.
  apply first_at_drop_duplicates.
Qed.

Lemma fetch_all_in_chunks_Ok (fuel : nat) (k : key) (s e cd : Z)
    (tr tr' : list request) (out : frame) :
  fetch_all_in_chunks fuel k s e cd tr = (Ok out, tr') ->
  exists frames, chunk_loop fuel k s e cd [] tr = (Ok frames, tr') /\ out = merge_frames frames.
Proof.
  rewrite fetch_all_in_chunks_unfold.
  destruct (chunk_loop fuel k s e cd [] tr) as [[frames| |] tr1]; intros E;
    inversion E; subst. now exists frames.
Qed.

(** C2, as the code has it.  Whatever [fetch_all_in_chunks] returns has at
  most one reading per timestamp: timestamps strictly increase, and of the
  rows that share a timestamp in the concatenated per-window frames the
  first one is kept.  [fetch_cdec] alone removes nothing: a frame it
  returns is sorted ascending, not strictly, and holds every row that
  passes cleaning, each as often as the payload has it.  The sort is
  pandas' default one, which is not stable: the order of rows with equal
  timestamps is not that of the payload. *)
Theorem collected_series_unique (fuel : nat) (k : key) (s e cd : Z)
    (tr tr' : list request) (out : frame) :
  fetch_all_in_chunks fuel k s e cd tr = (Ok out, tr') ->
  (exists frames,
     chunk_loop fuel k s e cd [] tr = (Ok frames, tr')
     /\ out = merge_frames frames
     /\ forall t, first_at datetime t out = first_at datetime t (List.concat frames))
  /\ StronglySorted (strictly_ascending datetime) out
  /\ NoDup (map datetime out)
  /\ forall data df rows,
       clean data = Some df -> cleaned_rows data = Some rows ->
       Sorted (ascending datetime) df /\ Permutation df rows.
Proof.
  intros Hrun. apply fetch_all_in_chunks_Ok in Hrun. destruct Hrun as [frames [Hloop ->]].
  split; [|split; [|split]].
  - exists frames. split; [exact Hloop|]. split; [reflexivity|].
    apply merge_frames_first_at.
  - apply merge_frames_strict.
  - apply strict_NoDup, merge_frames_strict.
  - intros data df rows Hdf Hrows. split; [now apply (clean_sorted data)|].
    now apply (clean_rows data).
Qed.

Lemma partitions_bounds (cd lo hi : Z) (ws : list (date * date)) :
  0 <= cd -> partitions cd lo hi ws ->
  Forall (fun w => lo <= fst w /\ fst w <= snd w <= hi /\ snd w <= fst w + cd) ws.
Proof.
  intros Hcd. induction 1 as [lo hi Hlt|lo hi Hle Hcut|lo hi ws Hlt Hp IH].
  - constructor.
  - constructor; [cbn; lia|constructor].
  - constructor; [cbn; lia|].
    eapply Forall_impl; [|exact IH]. cbn beta. intros w Hw. lia.
Qed.

(** Windows do not overlap: each ends before the next begins. *)
Lemma partitions_disjoint (cd lo hi : Z) (ws : list (date * date)) :
  0 <= cd -> partitions cd lo hi ws ->
  StronglySorted (fun a b => snd a < fst b) ws.
Proof.
  intros Hcd. induction 1 as [lo hi Hlt|lo hi Hle Hcut|lo hi ws Hlt Hp IH].
  - constructor.
  - repeat constructor.
  - constructor; [exact IH|].
    eapply Forall_impl; [|apply (partitions_bounds cd _ _ _ Hcd Hp)].
    cbn. intros w Hw. lia.
Qed.

(** Windows leave no gap: every day of the range is in one of them. *)
Lemma partitions_cover (cd lo hi : Z) (ws : list (date * date)) :
  partitions cd lo hi ws ->
  forall d, lo <= d <= hi -> exists w, In w ws /\ fst w <= d <= snd w.
Proof.
  induction 1 as [lo hi Hlt|lo hi Hle Hcut|lo hi ws Hlt Hp IH]; intros d Hd.
  - lia.
  - exists (lo, hi). split; [now left|cbn; lia].
  - destruct (Z.leb_spec d (lo + cd)) as [Hin|Hout].
    + exists (lo, lo + cd). split; [now left|cbn; lia].
    + destruct (IH d) as [w [Hw Hdw]]; [lia|]. exists w. split; [now right|exact Hdw].
Qed.

Lemma partitions_fun (cd lo hi : Z) (ws ws' : list (date * date)) :
  0 <= cd -> partitions cd lo hi ws -> partitions cd lo hi ws' -> ws = ws'.
Proof.
  intros Hcd Hp. revert ws'.
  induction Hp as [lo hi Hlt|lo hi Hle Hcut|lo hi ws Hlt Hp IH]; intros ws' Hp';
    inversion Hp'; subst; try reflexivity; try lia.
  f_equal. now apply IH.
Qed.

Lemma scenario_C_windows :
  partitions 30 (PyDate.mk 2020 1 1) (PyDate.mk 2020 3 1)
    [(PyDate.mk 2020 1 1, PyDate.mk 2020 1 31); (PyDate.mk 2020 2 1, PyDate.mk 2020 3 1)].
Proof.
  apply (partitions_cons 30 (PyDate.mk 2020 1 1) (PyDate.mk 2020 3 1)); [reflexivity|].
  apply (partitions_last 30 (PyDate.mk 2020 2 1) (PyDate.mk 2020 3 1)); discriminate.
Qed.


Lemma first_at_filter_window (lo hi : date) (truth : list row) (t : Z) :
  first_at datetime t (filter (in_window lo hi) truth)
  = if day_in lo hi t then first_at datetime t truth else None.
Proof.
  unfold first_at, in_window.
  induction truth as [|r truth IH]; cbn [filter find].
  - now destruct (day_in lo hi t).
  - destruct (Z.eqb_spec (datetime r) t) as [E|Hne].
    + subst t. destruct (day_in lo hi (datetime r)) eqn:Ei.
      * cbn [find]. now rewrite Z.eqb_refl.
      * rewrite IH. reflexivity.
    + destruct (day_in lo hi (datetime r)); [|exact IH].
      cbn [find]. destruct (Z.eqb_spec (datetime r) t); [contradiction|exact IH].
Qed.

Lemma serves_answers (k : key) (truth : list row) (s e : date) :
  serves k truth ->
  answers k s e (sort_values datetime (filter (in_window s e) truth)).
Proof.
  intros Hs. destruct (Hs s e) as [data [Hsvc Hrows]]. exists data. split; [exact Hsvc|].
  destruct data as [|r0 data0]; cbn [clean]; [|now rewrite Hrows].
  unfold cleaned_rows, parse_columns in Hrows. cbn [map] in Hrows.
  destruct (to_datetime []) as [dts|]; [|discriminate].
  cbn [option_map] in Hrows. inversion Hrows as [Hr].
  assert (E : with_columns dts [] = []) by (unfold with_columns; now destruct dts).
  rewrite E. cbn. now rewrite sort_values_nil.
Qed.

Lemma frame_of_serves (k : key) (truth : list row) (w : date * date) :
  serves k truth ->
  frame_of k w = sort_values datetime (filter (in_window (fst w) (snd w)) truth).
Proof.
  intros Hs. destruct (serves_answers k truth (fst w) (snd w) Hs) as [data [Hsvc Hc]].
  unfold frame_of. now rewrite Hsvc, Hc.
Qed.

Lemma serves_never_fails (k : key) (truth : list row) : serves k truth -> never_fails k.
Proof. intros Hs s e. eexists. now apply (serves_answers k truth). Qed.

(** Sorting the readings of a window moves none of them away from its
  timestamp when readings with one timestamp are one reading. *)
Lemma first_at_window_frame (truth : list row) (lo hi : date) (t : Z) :
  one_reading_per_timestamp truth ->
  first_at datetime t (sort_values datetime (filter (in_window lo hi) truth))
  = first_at datetime t (filter (in_window lo hi) truth).
Proof.
  intros Hone. apply first_at_agree; [symmetry; apply sort_values_perm|].
  intros r r' Hr Hr'. apply filter_In in Hr, Hr'. apply Hone; tauto.
Qed.

(** What the frames of a partition hold at timestamp [t]. *)
Lemma first_at_partition_frames (k : key) (truth : list row) (cd lo hi : Z)
    (ws : list (date * date)) (t : Z) :
  0 <= cd -> serves k truth -> one_reading_per_timestamp truth ->
  partitions cd lo hi ws ->
  first_at datetime t (List.concat (map (frame_of k) ws))
  = if day_in lo hi t then first_at datetime t truth else None.
Proof.
  intros Hcd Hs Hone. induction 1 as [lo hi Hlt|lo hi Hle Hcut|lo hi ws Hlt Hp IH].
  - cbn. unfold day_in.
    destruct (Z.leb_spec lo (ts_date t)), (Z.leb_spec (ts_date t) hi); try reflexivity; lia.
  - cbn [map List.concat]. rewrite app_nil_r, (frame_of_serves k truth) by exact Hs.
    rewrite first_at_window_frame by exact Hone. apply first_at_filter_window.
  - cbn [map List.concat]. rewrite first_at_app, (frame_of_serves k truth) by exact Hs.
    rewrite first_at_window_frame by exact Hone.
    rewrite first_at_filter_window, IH. cbn [fst snd].
    unfold day_in.
    destruct (Z.leb_spec lo (ts_date t)), (Z.leb_spec (ts_date t) (lo + cd)),
      (Z.leb_spec (lo + cd + 1) (ts_date t)), (Z.leb_spec (ts_date t) hi);
      cbn [andb]; try lia; destruct (first_at datetime t truth); reflexivity.
Qed.

(** What a collection over [lo .. hi] holds at timestamp [t]. *)
Lemma collect_first_at (fuel : nat) (k : key) (truth : list row) (lo hi cd : Z)
    (tr : list request) :
  serves k truth -> one_reading_per_timestamp truth ->
  0 <= cd -> 1 <= lo -> hi + cd <= PyDate._MAXORDINAL -> hi + 1 <= PyDate._MAXORDINAL ->
  (Z.to_nat (hi - lo + 1) <= fuel)%nat ->
  exists out tr',
    fetch_all_in_chunks fuel k lo hi cd tr = (Ok out, tr')
    /\ StronglySorted (strictly_ascending datetime) out
    /\ forall t, first_at datetime t out
                 = if day_in lo hi t then first_at datetime t truth else None.
Proof.
  intros Hs Hone Hcd Hlo Hmax Hmax1 Hfuel.
  destruct (chunk_loop_run k hi cd Hcd Hmax Hmax1 (serves_never_fails k truth Hs)
              fuel lo [] tr Hlo Hfuel) as [ws [Hp Hrun]].
  exists (merge_frames (map (frame_of k) ws)), (tr ++ map (request_of k) ws).
  split. { rewrite fetch_all_in_chunks_unfold, Hrun. reflexivity. }
  split; [apply merge_frames_strict|].
  intros t. rewrite merge_frames_first_at.
  now apply (first_at_partition_frames k truth cd lo hi).
Qed.


End CollectorFacts.
(** ** The series combiner *)

Section CombinerFacts.
Context {P : Pandas}.

Lemma all_at_NoDup {A : Type} (key : A -> Z) (t : Z) (l : list A) :
  NoDup (map key l) ->
  all_at key t l = match first_at key t l with Some r => [r] | None => [] end.
Proof.
  unfold all_at, first_at. induction l as [|x l IH]; cbn [map filter find]; intros Hnd.
  - reflexivity.
  - inversion Hnd as [|? ? Hx Hnd']; subst.
    destruct (Z.eqb_spec (key x) t) as [E|Hne]; [|now apply IH].
    f_equal. subst t.
    assert (Hnone : forall y, In y l -> (key y =? key x) = false).
    { intros y Hy. apply Z.eqb_neq. intros E. apply Hx. rewrite <- E. now apply in_map. }
    clear -Hnone. induction l as [|y l IH]; [reflexivity|]. cbn [filter].
    rewrite (Hnone y) by now left. apply IH. intros z Hz. apply Hnone. now right.
Qed.

Lemma first_at_In_keys {A : Type} (key : A -> Z) (t : Z) (l : list A) :
  In t (map key l) <-> first_at key t l <> None.
Proof.
  split.
  - intros Hin Hnone. apply in_map_iff in Hin. destruct Hin as [x [E Hx]].
    now apply (first_at_None key t l Hnone x Hx).
  - intros Hne. destruct (first_at key t l) as [r|] eqn:E; [|congruence].
    apply first_at_Some in E. destruct E as [Hr <-]. now apply in_map.
Qed.

Lemma merge_key_series (stage flow : frame) (t : Z) :
  NoDup (map datetime stage) -> NoDup (map datetime flow) ->
  In t (map datetime stage) \/ In t (map datetime flow) ->
  merge_key stage flow t = [joined stage flow t].
Proof.
  intros Hs Hf Hin. unfold merge_key, joined.
  rewrite (all_at_NoDup datetime t stage Hs), (all_at_NoDup datetime t flow Hf).
  rewrite !first_at_In_keys in Hin.
  destruct (first_at datetime t stage) as [l|], (first_at datetime t flow) as [r|];
    cbn; try reflexivity.
  destruct Hin; congruence.
Qed.

Lemma join_keys_In (stage flow : frame) (t : Z) :
  In t (join_keys stage flow) <-> In t (map datetime stage) \/ In t (map datetime flow).
Proof.
  unfold join_keys. rewrite sort_values_In, <- in_app_iff.
  generalize (map datetime stage ++ map datetime flow) as l. intros l.
  rewrite <- (map_id l) at 2. rewrite <- (map_id (drop_duplicates _ l)).
  rewrite !(first_at_In_keys (fun t => t)), first_at_drop_duplicates. reflexivity.
Qed.

Lemma join_keys_strict (stage flow : frame) :
  StronglySorted Z.lt (join_keys stage flow).
Proof. apply (sort_drop_strict (fun t : Z => t)). Qed.

Lemma merge_outer_series (stage flow : frame) :
  NoDup (map datetime stage) -> NoDup (map datetime flow) ->
  merge_outer stage flow = map (joined stage flow) (join_keys stage flow).
Proof.
  intros Hs Hf. unfold merge_outer.
  assert (Hall : forall t, In t (join_keys stage flow) ->
            merge_key stage flow t = [joined stage flow t]).
  { intros t Ht. apply merge_key_series; auto. now apply join_keys_In. }
  induction (join_keys stage flow) as [|t ks IH]; [reflexivity|].
  cbn [flat_map map]. rewrite Hall by now left. cbn [app]. f_equal.
  apply IH. intros t' Ht'. apply Hall. now right.
Qed.

Lemma combine_keys (stage flow : frame) :
  NoDup (map datetime stage) -> NoDup (map datetime flow) ->
  Permutation (combine stage flow) (map (joined stage flow) (join_keys stage flow)).
Proof.
  intros Hs Hf. unfold combine. rewrite merge_outer_series by assumption.
  apply sort_values_perm.
Qed.

Lemma join_keys_NoDup (stage flow : frame) : NoDup (join_keys stage flow).
Proof.
  pose proof (strict_NoDup (fun t : Z => t) _ (join_keys_strict stage flow)) as Hnd.
  now rewrite map_id in Hnd.
Qed.

Lemma joined_keys (stage flow : frame) (ks : list Z) :
  map c_datetime (map (joined stage flow) ks) = ks.
Proof. rewrite map_map. cbn [joined c_datetime]. apply map_id. Qed.

Lemma combine_strict (stage flow : frame) :
  NoDup (map datetime stage) -> NoDup (map datetime flow) ->
  StronglySorted (strictly_ascending c_datetime) (combine stage flow).
Proof.
  intros Hs Hf. apply sorted_NoDup_strict; [apply sort_values_sorted|].
  eapply Permutation_NoDup;
    [apply Permutation_map; symmetry; apply (combine_keys stage flow Hs Hf)|].
  rewrite joined_keys. apply join_keys_NoDup.
Qed.

Lemma combine_timestamps (stage flow : frame) (t : Z) :
  NoDup (map datetime stage) -> NoDup (map datetime flow) ->
  In t (map c_datetime (combine stage flow))
  <-> In t (map datetime stage) \/ In t (map datetime flow).
Proof.
  intros Hs Hf. rewrite <- join_keys_In.
  pose proof (joined_keys stage flow (join_keys stage flow)) as Hkeys.
  rewrite <- Hkeys.
  split; apply Permutation_in; apply Permutation_map;
    [|symmetry]; now apply combine_keys.
Qed.

(** Scenario D, for any two distinct timestamps and any two values. *)
Lemma combine_two_singletons (t1 t2 : Z) (v1 v2 : float) :
  t1 <> t2 ->
  combine [mkRow t1 v1] [mkRow t2 v2]
  = if t1 <? t2
    then [mkCombined t1 (Some v1) None; mkCombined t2 None (Some v2)]
    else [mkCombined t2 None (Some v2); mkCombined t1 (Some v1) None].
Proof.
  intros Hne.
  assert (Hs : NoDup (map datetime [mkRow t1 v1])) by (repeat constructor; intros []).
  assert (Hf : NoDup (map datetime [mkRow t2 v2])) by (repeat constructor; intros []).
  assert (H1 : joined [mkRow t1 v1] [mkRow t2 v2] t1 = mkCombined t1 (Some v1) None).
  { unfold joined, first_at. cbn [find datetime]. rewrite Z.eqb_refl.
    now destruct (Z.eqb_spec t2 t1); [congruence|]. }
  assert (H2 : joined [mkRow t1 v1] [mkRow t2 v2] t2 = mkCombined t2 None (Some v2)).
  { unfold joined, first_at. cbn [find datetime]. rewrite Z.eqb_refl.
    now destruct (Z.eqb_spec t1 t2); [congruence|]. }
  assert (Hrows : forall c, In c (combine [mkRow t1 v1] [mkRow t2 v2])
            <-> c = mkCombined t1 (Some v1) None \/ c = mkCombined t2 None (Some v2)).
  { intros c.
    assert (Hc : In c (combine [mkRow t1 v1] [mkRow t2 v2])
                 <-> In c (map (joined [mkRow t1 v1] [mkRow t2 v2])
                             (join_keys [mkRow t1 v1] [mkRow t2 v2])))
      by (split; apply Permutation_in; [|symmetry]; now apply combine_keys).
    rewrite Hc, in_map_iff. split.
    - intros [t [<- Ht]]. apply join_keys_In in Ht. cbn [map datetime In] in Ht.
      destruct Ht as [[E|[]]|[E|[]]]; subst t; [left; exact H1|right; exact H2].
    - intros [-> | ->]; [exists t1|exists t2]; (split; [assumption|]);
        apply join_keys_In; cbn [map datetime In]; tauto. }
  apply (strict_same_rows c_datetime); [now apply combine_strict| |].
  - destruct (Z.ltb_spec t1 t2); repeat constructor; unfold strictly_ascending; cbn; lia.
  - intros c. rewrite Hrows. destruct (t1 <? t2); cbn [In]; intuition congruence.
Qed.


End CombinerFacts.
(** ** The request log: keys and failures *)

Section LogFacts.
Context `{W : World}.

Lemma logs_ret {A : Type} (P : request -> Prop) (a : A) : logs P (ret a).
Proof. intros tr. exists []. cbn. now rewrite app_nil_r. Qed.

Lemma logs_raise {A : Type} (P : request -> Prop) (x : exn) : logs P (@raise A x).
Proof. intros tr. exists []. cbn. now rewrite app_nil_r. Qed.

Lemma logs_out_of_fuel {A : Type} (P : request -> Prop) : logs P (@out_of_fuel A).
Proof. intros tr. exists []. cbn. now rewrite app_nil_r. Qed.

Lemma logs_fetch_cdec (P : request -> Prop) (k : key) (s e : date) :
  P (k, s, e) -> logs P (fetch_cdec k s e).
Proof.
  intros HP tr. exists [(k, s, e)].
  destruct (fetch_cdec_cases k s e tr)
    as [[_ ->]|[[data [_ [_ ->]]]|[data [df [_ [_ ->]]]]]]; cbn;
    (split; [reflexivity|now constructor]).
Qed.

Lemma logs_bind {A B : Type} (P : request -> Prop) (m : M A) (f : A -> M B) :
  logs P m -> (forall a, logs P (f a)) -> logs P (bind m f).
Proof.
  intros Hm Hf tr. destruct (Hm tr) as [r1 [E1 H1]]. unfold bind.
  destruct (m tr) as [[a|x|] tr1]; cbn [snd] in E1; subst tr1;
    try (exists r1; now split).
  destruct (Hf a (tr ++ r1)) as [r2 [E2 H2]].
  exists (r1 ++ r2). split; [now rewrite E2, app_assoc|].
  apply Forall_app. now split.
Qed.

Lemma fail_stop_ret {A : Type} (a : A) : fail_stop (ret a).
Proof. intros tr. exists []. cbn. rewrite app_nil_r. now split. Qed.

Lemma fail_stop_raise {A : Type} (x : exn) : x <> FetchError -> fail_stop (@raise A x).
Proof.
  intros Hx tr. exists []. cbn. rewrite app_nil_r. split; [reflexivity|].
  destruct x; try constructor. congruence.
Qed.

Lemma fail_stop_out_of_fuel {A : Type} : fail_stop (@out_of_fuel A).
Proof. intros tr. exists []. cbn. rewrite app_nil_r. now split. Qed.

Lemma fail_stop_fetch_cdec (k : key) (s e : date) : fail_stop (fetch_cdec k s e).
Proof.
  intros tr. exists [(k, s, e)].
  destruct (fetch_cdec_cases k s e tr)
    as [[E ->]|[[data [E [_ ->]]]|[data [df [E [_ ->]]]]]]; cbn;
    (split; [reflexivity|]).
  - exists [], (k, s, e). split; [reflexivity|]. split; [constructor|].
    unfold answered. cbn. congruence.
  - constructor; [|constructor]. unfold answered. cbn. congruence.
  - constructor; [|constructor]. unfold answered. cbn. congruence.
Qed.

Lemma fail_stop_bind {A B : Type} (m : M A) (f : A -> M B) :
  fail_stop m -> (forall a, fail_stop (f a)) -> fail_stop (bind m f).
Proof.
  intros Hm Hf tr. destruct (Hm tr) as [r1 [E1 H1]]. unfold bind.
  destruct (m tr) as [[a|x|] tr1]; cbn [snd fst] in E1, H1; subst tr1;
    try (exists r1; now split).
  destruct (Hf a (tr ++ r1)) as [r2 [E2 H2]].
  exists (r1 ++ r2). split; [now rewrite E2, app_assoc|].
  cbn [stopped_at_failure] in H1.
  destruct (fst (f a (tr ++ r1))) as [b|x|]; cbn [stopped_at_failure] in *;
    try (apply Forall_app; now split).
  destruct x; try (apply Forall_app; now split).
  destruct H2 as [pre [q [-> [Hpre Hq]]]].
  exists (r1 ++ pre), q. split; [now rewrite app_assoc|].
  split; [apply Forall_app; now split|exact Hq].
Qed.

(** Both properties hold of every function of the module, by the way each
  is put together from [fetch_cdec]. *)
Section Composite.
Variable P : request -> Prop.

Lemma probe_logs (k : key) (years : list Z) :
  (forall s e, P (k, s, e)) -> logs P (probe k years).
Proof.
  intros HP. induction years as [|y years IH]; cbn [probe]; [apply logs_ret|].
  apply logs_bind; [now apply logs_fetch_cdec|].
  intros [|r rest]; [exact IH|apply logs_ret].
Qed.

Lemma narrow_logs (k : key) (fuel : nat) :
  (forall s e, P (k, s, e)) -> forall y e0, logs P (narrow fuel k y e0).
Proof.
  intros HP. induction fuel as [|fuel IH]; intros y e0; cbn [narrow];
    destruct (y >? 1900); try apply logs_ret; [apply logs_out_of_fuel|].
  apply logs_bind; [now apply logs_fetch_cdec|].
  intros [|r rest]; [apply logs_ret|apply IH].
Qed.

Lemma find_earliest_date_logs (k : key) :
  (forall s e, P (k, s, e)) -> logs P (find_earliest_date k).
Proof.
  intros HP. unfold find_earliest_date.
  apply logs_bind; [now apply probe_logs|]. intros [e0|].
  - apply logs_bind; [now apply narrow_logs|]. intros st. apply logs_ret.
  - apply logs_bind; [now apply logs_fetch_cdec|].
    intros [|r rest]; [apply logs_raise|apply logs_ret].
Qed.

Lemma chunk_loop_logs (k : key) (hi cd : Z) (fuel : nat) :
  (forall s e, P (k, s, e)) -> forall cur frames, logs P (chunk_loop fuel k cur hi cd frames).
Proof.
  intros HP. induction fuel as [|fuel IH]; intros cur frames; cbn [chunk_loop];
    destruct (cur <=? hi); try apply logs_ret; [apply logs_out_of_fuel|].
  destruct (PyDate.add_days cur cd) as [hi'|]; [|apply logs_raise].
  cbv zeta. apply logs_bind; [now apply logs_fetch_cdec|]. intros df.
  destruct (PyDate.add_days (Z.min hi' hi) 1) as [cur'|]; [apply IH|apply logs_raise].
Qed.

Lemma fetch_all_in_chunks_logs (k : key) (fuel : nat) (s e cd : Z) :
  (forall s' e', P (k, s', e')) -> logs P (fetch_all_in_chunks fuel k s e cd).
Proof.
  intros HP. unfold fetch_all_in_chunks.
  apply logs_bind; [now apply chunk_loop_logs|]. intros frames. apply logs_ret.
Qed.

End Composite.

Lemma probe_fail_stop (k : key) (years : list Z) : fail_stop (probe k years).
Proof.
  induction years as [|y years IH]; cbn [probe]; [apply fail_stop_ret|].
  apply fail_stop_bind; [apply fail_stop_fetch_cdec|].
  intros [|r rest]; [exact IH|apply fail_stop_ret].
Qed.

Lemma narrow_fail_stop (k : key) (fuel : nat) :
  forall y e0, fail_stop (narrow fuel k y e0).
Proof.
  induction fuel as [|fuel IH]; intros y e0; cbn [narrow];
    destruct (y >? 1900); try apply fail_stop_ret; [apply fail_stop_out_of_fuel|].
  apply fail_stop_bind; [apply fail_stop_fetch_cdec|].
  intros [|r rest]; [apply fail_stop_ret|apply IH].
Qed.

Lemma find_earliest_date_fail_stop (k : key) : fail_stop (find_earliest_date k).
Proof.
  unfold find_earliest_date.
  apply fail_stop_bind; [apply probe_fail_stop|]. intros [e0|].
  - apply fail_stop_bind; [apply narrow_fail_stop|]. intros st. apply fail_stop_ret.
  - apply fail_stop_bind; [apply fail_stop_fetch_cdec|].
    intros [|r rest]; [apply fail_stop_raise; discriminate|apply fail_stop_ret].
Qed.

Lemma chunk_loop_fail_stop (k : key) (hi cd : Z) (fuel : nat) :
  forall cur frames, fail_stop (chunk_loop fuel k cur hi cd frames).
Proof.
  induction fuel as [|fuel IH]; intros cur frames; cbn [chunk_loop];
    destruct (cur <=? hi); try apply fail_stop_ret; [apply fail_stop_out_of_fuel|].
  destruct (PyDate.add_days cur cd) as [hi'|]; [|apply fail_stop_raise; discriminate].
  cbv zeta. apply fail_stop_bind; [apply fail_stop_fetch_cdec|]. intros df.
  destruct (PyDate.add_days (Z.min hi' hi) 1) as [cur'|];
    [apply IH|apply fail_stop_raise; discriminate].
Qed.

Lemma fetch_all_in_chunks_fail_stop (k : key) (fuel : nat) (s e cd : Z) :
  fail_stop (fetch_all_in_chunks fuel k s e cd).
Proof.
  unfold fetch_all_in_chunks.
  apply fail_stop_bind; [apply chunk_loop_fail_stop|]. intros frames. apply fail_stop_ret.
Qed.

Lemma logs_and_fail_stop {A : Type} (P : request -> Prop) (m : M A) (tr : list request) :
  logs P m -> fail_stop m ->
  exists reqs,
    snd (m tr) = tr ++ reqs /\ Forall P reqs /\ stopped_at_failure (fst (m tr)) reqs.
Proof.
  intros Hl Hf. destruct (Hl tr) as [r1 [E1 H1]]. destruct (Hf tr) as [r2 [E2 H2]].
  assert (r1 = r2) by (apply (app_inv_head tr); congruence). subst r2.
  exists r1. auto.
Qed.

(** X1. [find_earliest_date] passes station, sensor and duration code
  unchanged to every request it issues, and it stops at the first request
  that fails: when it ends in [FetchError] the failed request is the last
  one in the log and all earlier ones were answered; when it ends in any
  other way (a day returned, "No data found", an exception of pandas on a
  payload), every request it issued was answered. *)
Theorem find_earliest_date_requests (k : key) (tr : list request) :
  exists reqs,
    snd (find_earliest_date k tr) = tr ++ reqs
    /\ Forall (fun q => req_key q = k) reqs
    /\ stopped_at_failure (fst (find_earliest_date k tr)) reqs.
Proof.
  apply logs_and_fail_stop.
  - apply find_earliest_date_logs. reflexivity.
  - apply find_earliest_date_fail_stop.
Qed.

(** X2. [fetch_all_in_chunks] passes its key unchanged to every request,
  and a window that fails aborts the collection at once: on [FetchError]
  the failed window is the last request issued, and a frame is only ever
  returned when every window requested was answered. *)
Theorem fetch_all_in_chunks_requests (fuel : nat) (k : key) (s e cd : Z)
    (tr : list request) :
  exists reqs,
    snd (fetch_all_in_chunks fuel k s e cd tr) = tr ++ reqs
    /\ Forall (fun q => req_key q = k) reqs
    /\ stopped_at_failure (fst (fetch_all_in_chunks fuel k s e cd tr)) reqs.
Proof.
  apply logs_and_fail_stop.
  - apply fetch_all_in_chunks_logs. reflexivity.
  - apply fetch_all_in_chunks_fail_stop.
Qed.

(** X3. Every request of [export_station_all_time] is for the station
  given, duration code "E" and sensor 1 or 20, and the export stops at the
  first failed request: it writes its three frames only if every request
  was answered. *)
Theorem export_station_all_time_requests (fuel : nat) (station : string)
    (tr : list request) :
  exists reqs,
    snd (export_station_all_time fuel station tr) = tr ++ reqs
    /\ Forall (export_request station) reqs
    /\ stopped_at_failure (fst (export_station_all_time fuel station tr)) reqs.
Proof.
  assert (H1 : forall s e, export_request station (mkKey station 1 "E", s, e))
    by (intros; repeat split; now left).
  assert (H20 : forall s e, export_request station (mkKey station 20 "E", s, e))
    by (intros; repeat split; now right).
  apply logs_and_fail_stop; unfold export_station_all_time.
  - apply logs_bind; [now apply find_earliest_date_logs|]. intros e1.
    apply logs_bind; [now apply find_earliest_date_logs|]. intros e2.
    apply logs_bind; [now apply fetch_all_in_chunks_logs|]. intros stage.
    apply logs_bind; [now apply fetch_all_in_chunks_logs|]. intros flow.
    apply logs_ret.
  - apply fail_stop_bind; [apply find_earliest_date_fail_stop|]. intros e1.
    apply fail_stop_bind; [apply find_earliest_date_fail_stop|]. intros e2.
    apply fail_stop_bind; [apply fetch_all_in_chunks_fail_stop|]. intros stage.
    apply fail_stop_bind; [apply fetch_all_in_chunks_fail_stop|]. intros flow.
    apply fail_stop_ret.
Qed.

End LogFacts.

(** ** The earliest-date finder: the anchor path in full *)

Section FinderPaths.
Context `{W : World}.

(** How the probe phase can end: every anchor empty; or a first anchor with
  data after empty ones; or, after empty ones, a request that brings no
  frame back (it failed, or pandas raised on its payload). *)
Lemma probe_cases (k : key) (years : list Z) :
  forall tr,
  (probe k years tr = (Ok None, tr ++ map (year_request k) years)
   /\ forall y, In y years -> answers k (PyDate.mk y 1 1) (PyDate.mk y 12 31) [])
  \/ (exists pre y post df e0,
        years = pre ++ y :: post
        /\ (forall y', In y' pre -> answers k (PyDate.mk y' 1 1) (PyDate.mk y' 12 31) [])
        /\ answers k (PyDate.mk y 1 1) (PyDate.mk y 12 31) df
        /\ min_date df = Some e0
        /\ probe k years tr = (Ok (Some e0), tr ++ map (year_request k) (pre ++ [y])))
  \/ (exists pre y post x,
        years = pre ++ y :: post
        /\ (forall y', In y' pre -> answers k (PyDate.mk y' 1 1) (PyDate.mk y' 12 31) [])
        /\ (x = FetchError \/ x = ValueError)
        /\ probe k years tr = (Raise x, tr ++ map (year_request k) (pre ++ [y]))).
Proof.
  induction years as [|y years IH]; intros tr.
  - left. cbn. rewrite app_nil_r. split; [reflexivity|intros y []].
  - cbn [probe]. unfold bind.
    destruct (fetch_cdec_cases k (PyDate.mk y 1 1) (PyDate.mk y 12 31) tr)
      as [[_ ->]|[[data [_ [_ ->]]]|[data [df [Esvc [Eclean ->]]]]]].
    { right. right. exists [], y, years, FetchError. repeat split; auto. intros y' []. }
    { right. right. exists [], y, years, ValueError. repeat split; auto. intros y' []. }
    destruct df as [|r rest].
    + assert (Hy : answers k (PyDate.mk y 1 1) (PyDate.mk y 12 31) [])
        by (exists data; now split).
      destruct (IH (tr ++ [(k, PyDate.mk y 1 1, PyDate.mk y 12 31)]))
        as [[Hrun Hall]|[[pre [y0 [post [df [e0 [Hdec [Hpre [Hans [Hmin Hrun]]]]]]]]]
                        |[pre [y0 [post [x [Hdec [Hpre [Hfail Hrun]]]]]]]]].
      * left. split.
        -- etransitivity; [exact Hrun|]. cbn [map]. now rewrite <- app_assoc.
        -- intros y' [<-|Hy']; auto.
      * right. left. exists (y :: pre), y0, post, df, e0. subst years.
        repeat split; auto.
        -- intros y' [<-|Hy']; auto.
        -- etransitivity; [exact Hrun|]. cbn [map app]. now rewrite <- app_assoc.
      * right. right. exists (y :: pre), y0, post, x. subst years.
        repeat split; auto.
        -- intros y' [<-|Hy']; auto.
        -- etransitivity; [exact Hrun|]. cbn [map app]. now rewrite <- app_assoc.
    + right. left. exists [], y, years, (r :: rest), (ts_date (datetime_min r rest)).
      repeat split; auto.
      * intros y' [].
      * exists data. now split.
Qed.

Lemma probe_skip_empty (k : key) (pre rest : list Z) (tr : list request) :
  (forall y, In y pre -> answers k (PyDate.mk y 1 1) (PyDate.mk y 12 31) []) ->
  probe k (pre ++ rest) tr = probe k rest (tr ++ map (year_request k) pre).
Proof.
  revert tr. induction pre as [|y pre IH]; intros tr Hpre; cbn [app map probe].
  - now rewrite app_nil_r.
  - unfold bind. rewrite (fetch_cdec_answers _ _ _ []) by (apply Hpre; now left).
    rewrite IH by (intros; apply Hpre; now right).
    now rewrite <- app_assoc.
Qed.

(** The narrowing loop over [j] years with data followed by an empty one. *)
Lemma narrow_until_empty (k : key) (mins : Z -> date) (j : nat) :
  forall (fuel : nat) (y : Z) (e : date) (tr : list request),
  (S j <= fuel)%nat -> 1900 < y - Z.of_nat j ->
  (forall i, 1 <= i <= Z.of_nat j ->
     exists df, answers k (PyDate.mk (y - i) 1 1) (PyDate.mk (y - i) 12 31) df
                /\ min_date df = Some (mins (y - i))) ->
  answers k (PyDate.mk (y - Z.of_nat j - 1) 1 1) (PyDate.mk (y - Z.of_nat j - 1) 12 31) [] ->
  narrow fuel k y e tr
  = (Ok (match j with O => e | S _ => mins (y - Z.of_nat j) end, y - Z.of_nat j),
     tr ++ map (year_request k) (years_before y (S j))).
Proof.
  induction j as [|j IH]; intros fuel y e tr Hfuel Hy Hdata Hgap;
    (destruct fuel as [|fuel]; [lia|]); cbn [narrow];
    replace (y >? 1900) with true by lia; unfold bind.
  - replace (y - Z.of_nat 0 - 1) with (y - 1) in Hgap by lia.
    rewrite (fetch_cdec_answers _ _ _ []) by exact Hgap.
    unfold ret, years_before. cbn [seq map].
    replace (y - Z.of_nat 0) with y by lia.
    now replace (y - 1 - Z.of_nat 0) with (y - 1) by lia.
  - destruct (Hdata 1) as [df [Hans Hmin]]; [lia|].
    rewrite (fetch_cdec_answers _ _ _ df) by exact Hans.
    destruct df as [|r rest]; [discriminate|].
    cbn [min_date] in Hmin. inversion Hmin as [Hm]. rewrite Hm.
    rewrite (IH fuel (y - 1) (mins (y - 1))).
    + rewrite (years_before_S y (S j)). cbn [map]. rewrite <- app_assoc. cbn [app].
      replace (y - Z.of_nat (S j)) with (y - 1 - Z.of_nat j) by lia.
      assert (Hm' : match j with
                    | O => mins (y - 1)
                    | S _ => mins (y - 1 - Z.of_nat j)
                    end = mins (y - 1 - Z.of_nat j))
        by (destruct j; [f_equal; lia|reflexivity]).
      rewrite Hm'. reflexivity.
    + lia.
    + lia.
    + intros i Hi. replace (y - 1 - i) with (y - (i + 1)) by lia. apply Hdata. lia.
    + replace (y - 1 - Z.of_nat j - 1) with (y - Z.of_nat (S j) - 1) by lia. exact Hgap.
Qed.

(** X4. The anchor path in general.  Let [a] be the first anchor year with
  data (all earlier anchors empty), [e0] the earliest day of its frame and
  [y0 = e0.year].  If the [j] years before [y0] all have data, the year
  before those is empty and still after 1900, then [find_earliest_date]
  returns the earliest day of the frame of year [y0 - j] ([e0] itself when
  [j = 0]), having asked for the anchors up to [a] and then for the years
  [y0 - 1, ..., y0 - j - 1], one request each and nothing else. *)
Theorem find_earliest_narrows_to_gap (k : key) (pre post : list Z) (a : Z)
    (df0 : frame) (e0 : date) (mins : Z -> date) (j : nat) (tr : list request) :
  probe_years = pre ++ a :: post ->
  (forall y, In y pre -> answers k (PyDate.mk y 1 1) (PyDate.mk y 12 31) []) ->
  answers k (PyDate.mk a 1 1) (PyDate.mk a 12 31) df0 ->
  min_date df0 = Some e0 ->
  (forall i, 1 <= i <= Z.of_nat j ->
     exists df, answers k (PyDate.mk (PyDate.year e0 - i) 1 1)
                  (PyDate.mk (PyDate.year e0 - i) 12 31) df
                /\ min_date df = Some (mins (PyDate.year e0 - i))) ->
  answers k (PyDate.mk (PyDate.year e0 - Z.of_nat j - 1) 1 1)
    (PyDate.mk (PyDate.year e0 - Z.of_nat j - 1) 12 31) [] ->
  1900 < PyDate.year e0 - Z.of_nat j ->
  find_earliest_date k tr
  = (Ok (match j with O => e0 | S _ => mins (PyDate.year e0 - Z.of_nat j) end),
     tr ++ map (year_request k) (pre ++ [a])
        ++ map (year_request k) (years_before (PyDate.year e0) (S j))).
Proof.
  intros Hdec Hpre Hans Hmin Hdata Hgap Hfloor.
  unfold find_earliest_date, bind. rewrite Hdec, (probe_skip_empty k pre) by exact Hpre.
  rewrite (probe_first_hit k a post df0 e0) by assumption.
  rewrite (narrow_until_empty k mins j) by (assumption || lia).
  unfold ret. cbn [fst]. rewrite map_app. cbn [map]. now rewrite <- !app_assoc.
Qed.

(** X5. A failed request in the coarse phase ends the search at once: when
  the anchors before [y] are empty and the request for [y] fails,
  [find_earliest_date] raises [FetchError] after exactly those requests,
  with no fallback probe and no narrowing; and when all anchors are empty
  and the fallback request fails, it raises [FetchError] after the nine
  requests. *)
Theorem find_earliest_probe_failure (k : key) (tr : list request) :
  (forall pre y post,
     probe_years = pre ++ y :: post ->
     (forall y', In y' pre -> answers k (PyDate.mk y' 1 1) (PyDate.mk y' 12 31) []) ->
     service k (PyDate.mk y 1 1) (PyDate.mk y 12 31) = Failed ->
     find_earliest_date k tr
     = (Raise FetchError, tr ++ map (year_request k) (pre ++ [y])))
  /\ ((forall y, In y probe_years -> answers k (PyDate.mk y 1 1) (PyDate.mk y 12 31) []) ->
      service k (PyDate.mk 2000 1 1) today = Failed ->
      find_earliest_date k tr
      = (Raise FetchError,
         tr ++ map (year_request k) probe_years ++ [(k, PyDate.mk 2000 1 1, today)])).
Proof.
  split.
  - intros pre y post Hdec Hpre Hfail.
    unfold find_earliest_date, bind. rewrite Hdec, (probe_skip_empty k pre) by exact Hpre.
    cbn [probe]. unfold bind, fetch_cdec. rewrite Hfail.
    rewrite map_app. cbn [map]. now rewrite <- app_assoc.
  - intros Hempty Hfail. unfold find_earliest_date, bind.
    rewrite (probe_all_empty k probe_years tr Hempty).
    unfold fetch_cdec. rewrite Hfail. now rewrite <- app_assoc.
Qed.

Lemma narrow_trace_bound (k : key) (fuel : nat) :
  forall y e tr,
  exists reqs,
    snd (narrow fuel k y e tr) = tr ++ reqs
    /\ (List.length reqs <= Z.to_nat (y - 1900))%nat.
Proof.
  induction fuel as [|fuel IH]; intros y e tr; cbn [narrow];
    destruct (Z.gtb_spec y 1900) as [Hgt|Hle];
    try (exists []; cbn [snd ret out_of_fuel List.length]; rewrite app_nil_r;
         split; [reflexivity|lia]).
  unfold bind.
  destruct (fetch_cdec_cases k (PyDate.mk (y - 1) 1 1) (PyDate.mk (y - 1) 12 31) tr)
    as [[_ ->]|[[data [_ [_ ->]]]|[data [df [_ [_ ->]]]]]];
    try (exists [(k, PyDate.mk (y - 1) 1 1, PyDate.mk (y - 1) 12 31)];
         cbn [snd List.length]; split; [reflexivity|lia]).
  destruct df as [|r rest];
    [exists [(k, PyDate.mk (y - 1) 1 1, PyDate.mk (y - 1) 12 31)];
     cbn [snd ret List.length]; split; [reflexivity|lia]|].
  destruct (IH (y - 1) (ts_date (datetime_min r rest))
              (tr ++ [(k, PyDate.mk (y - 1) 1 1, PyDate.mk (y - 1) 12 31)]))
    as [reqs [Hr Hlen]].
  exists ((k, PyDate.mk (y - 1) 1 1, PyDate.mk (y - 1) 12 31) :: reqs).
  split; [etransitivity; [exact Hr|]; now rewrite <- app_assoc|].
  cbn [List.length]. lia.
Qed.

Lemma min_date_in_window (k : key) (s e : date) (df : frame) (d : date) :
  answers_in_window k -> answers k s e df -> min_date df = Some d -> s <= d <= e.
Proof.
  intros Hwin Hans Hmin.
  destruct (min_date_spec df d Hmin) as [r [Hin [-> _]]]. eapply Hwin; eauto.
Qed.

(** X6. With a service that keeps to the window, [find_earliest_date] never
  issues more than 118 requests: the eight anchors and the 110 years from
  2009 down to 1900. *)
Theorem find_earliest_request_bound (k : key) (tr : list request) :
  answers_in_window k ->
  exists reqs,
    snd (find_earliest_date k tr) = tr ++ reqs /\ (List.length reqs <= 118)%nat.
Proof.
  intros Hwin. unfold find_earliest_date, bind.
  destruct (probe_cases k probe_years tr)
    as [[Hrun _]|[[pre [y [post [df [e0 [Hdec [_ [Hans [Hmin Hrun]]]]]]]]]
                 |[pre [y [post [x [Hdec [_ [_ Hrun]]]]]]]]]; rewrite Hrun.
  - exists (map (year_request k) probe_years ++ [(k, PyDate.mk 2000 1 1, today)]).
    destruct (fetch_cdec_cases k (PyDate.mk 2000 1 1) today
                (tr ++ map (year_request k) probe_years))
      as [[_ ->]|[[data [_ [_ ->]]]|[data [df [_ [_ ->]]]]]]; cbn [snd];
      try (split; [now rewrite app_assoc|cbn; lia]).
    destruct df; cbn [snd]; (split; [now rewrite app_assoc|cbn; lia]).
  - assert (Hy : PyDate.year e0 = y).
    { apply PyDateFacts.year_in_window. eapply min_date_in_window; eauto. }
    rewrite Hy.
    destruct (narrow_trace_bound k (Z.to_nat (y - 1900)) y e0
                (tr ++ map (year_request k) (pre ++ [y]))) as [reqs [Hr Hlen]].
    exists (map (year_request k) (pre ++ [y]) ++ reqs). split.
    + destruct (narrow _ k y e0 _) as [[st| |] tr1]; cbn [snd] in *; subst tr1;
        now rewrite app_assoc.
    + rewrite length_app, length_map, length_app. cbn [List.length].
      unfold probe_years in Hdec.
      do 8 (destruct pre as [|? pre];
            [injection Hdec as ? ?; subst; cbn [List.length] in *; lia
            |apply (f_equal (@tl Z)) in Hdec; cbn [tl app] in Hdec;
             cbn [List.length] in *]).
      destruct pre; discriminate Hdec.
  - exists (map (year_request k) (pre ++ [y])). split; [reflexivity|].
    rewrite length_map, length_app. cbn [List.length].
    assert (Hlen : List.length probe_years = (List.length pre + S (List.length post))%nat)
      by (rewrite Hdec, length_app; reflexivity).
    cbn in Hlen. lia.
Qed.

Lemma narrow_observed (k : key) (fuel : nat) :
  forall y e tr d yf tr',
  narrow fuel k y e tr = (Ok (d, yf), tr') ->
  exists reqs,
    tr' = tr ++ reqs
    /\ (d = e
        \/ exists y' df, In (year_request k y') reqs
                         /\ answers k (PyDate.mk y' 1 1) (PyDate.mk y' 12 31) df
                         /\ min_date df = Some d).
Proof.
  induction fuel as [|fuel IH]; intros y e tr d yf tr'; cbn [narrow];
    destruct (y >? 1900);
    try (unfold ret; intros E; inversion E; subst; exists []; rewrite app_nil_r;
         split; [reflexivity|now left]);
    try (intros E; discriminate E).
  unfold bind.
  destruct (fetch_cdec k (PyDate.mk (y - 1) 1 1) (PyDate.mk (y - 1) 12 31) tr)
    as [[df| |] tr1] eqn:Ef; try (intros E; discriminate E).
  apply fetch_cdec_Ok in Ef. destruct Ef as [Hans ->].
  destruct df as [|r rest].
  - unfold ret. intros E. inversion E; subst.
    eexists. split; [reflexivity|now left].
  - intros E. apply IH in E. destruct E as [reqs [-> Hd]].
    exists ((k, PyDate.mk (y - 1) 1 1, PyDate.mk (y - 1) 12 31) :: reqs).
    split; [now rewrite <- app_assoc|].
    destruct Hd as [->|[y' [df [Hin [Hans' Hmin]]]]].
    + right. exists (y - 1), (r :: rest). split; [now left|]. split; [exact Hans|reflexivity].
    + right. exists y', df. split; [now right|]. now split.
Qed.

(** X7. A day returned by [find_earliest_date] is never made up: it is the
  day of the earliest reading of a frame that one of its own requests
  brought back. *)
Theorem find_earliest_returns_observed (k : key) (tr tr' : list request) (d : date) :
  find_earliest_date k tr = (Ok d, tr') ->
  exists reqs s e df,
    tr' = tr ++ reqs /\ In (k, s, e) reqs
    /\ answers k s e df /\ min_date df = Some d /\ is_min_date df d.
Proof.
  unfold find_earliest_date, bind. intros Hrun.
  destruct (probe_cases k probe_years tr)
    as [[Hp _]|[[pre [y [post [df [e0 [_ [_ [Hans [Hmin Hp]]]]]]]]]
               |[pre [y [post [x [_ [_ [_ Hp]]]]]]]]]; rewrite Hp in Hrun;
    try discriminate Hrun.
  - destruct (fetch_cdec k (PyDate.mk 2000 1 1) today _) as [[df| |] tr1] eqn:Ef;
      try discriminate Hrun.
    apply fetch_cdec_Ok in Ef. destruct Ef as [Hans ->].
    destruct df as [|r rest]; [discriminate Hrun|].
    unfold ret in Hrun. inversion Hrun; subst.
    exists (map (year_request k) probe_years ++ [(k, PyDate.mk 2000 1 1, today)]),
      (PyDate.mk 2000 1 1), today, (r :: rest).
    split; [now rewrite app_assoc|]. split; [apply in_or_app; right; now left|].
    split; [exact Hans|]. split; [reflexivity|now apply min_date_spec].
  - destruct (narrow _ k (PyDate.year e0) e0 _) as [[[d' yf]| |] tr1] eqn:En;
      try discriminate Hrun.
    unfold ret in Hrun. cbn [fst] in Hrun. inversion Hrun; subst d' tr1.
    apply narrow_observed in En. destruct En as [reqs [-> Hd]].
    destruct Hd as [->|[y' [df' [Hin [Hans' Hmin']]]]].
    + exists (map (year_request k) (pre ++ [y]) ++ reqs),
        (PyDate.mk y 1 1), (PyDate.mk y 12 31), df.
      split; [now rewrite app_assoc|].
      split; [apply in_or_app; left; rewrite map_app; apply in_or_app; right; now left|].
      split; [exact Hans|]. split; [exact Hmin|now apply min_date_spec].
    + exists (map (year_request k) (pre ++ [y]) ++ reqs),
        (PyDate.mk y' 1 1), (PyDate.mk y' 12 31), df'.
      split; [now rewrite app_assoc|].
      split; [apply in_or_app; now right|].
      split; [exact Hans'|]. split; [exact Hmin'|now apply min_date_spec].
Qed.

End FinderPaths.

(** ** The chunked collector: counts, provenance, merging *)

Section CollectorMore.
Context `{W : World}.

Lemma partitions_length (cd lo hi : Z) (ws : list (date * date)) :
  0 <= cd -> partitions cd lo hi ws -> lo <= hi ->
  Z.of_nat (List.length ws) = (hi - lo) / (cd + 1) + 1.
Proof.
  intros Hcd. induction 1 as [lo hi Hlt|lo hi Hle Hcut|lo hi ws Hlt Hp IH]; intros Hlo.
  - lia.
  - cbn [List.length]. rewrite Z.div_small by lia. reflexivity.
  - cbn [List.length]. rewrite Nat2Z.inj_succ, IH by lia.
    replace (hi - lo) with (hi - (lo + cd + 1) + 1 * (cd + 1)) by lia.
    rewrite Z.div_add by lia. lia.
Qed.



(** What a finished loop has requested and gathered. *)
Lemma chunk_loop_frames (k : key) (hi cd : Z) (fuel : nat) :
  forall cur frames tr frames' tr',
  chunk_loop fuel k cur hi cd frames tr = (Ok frames', tr') ->
  exists ws,
    frames' = frames ++ map (frame_of k) ws
    /\ tr' = tr ++ map (request_of k) ws
    /\ Forall (fun w => answers k (fst w) (snd w) (frame_of k w)
                        /\ snd w <= hi /\ (0 <= cd -> cur <= fst w)) ws.
Proof.
  induction fuel as [|fuel IH]; intros cur frames tr frames' tr'; cbn [chunk_loop];
    destruct (Z.leb_spec cur hi) as [Hle|Hgt];
    try (unfold ret; intros E; inversion E; subst; exists []; cbn;
         rewrite !app_nil_r; repeat split; constructor);
    try (intros E; discriminate E).
  destruct (PyDate.add_days cur cd) as [hi'|] eqn:Eadd; [|intros E; discriminate E].
  apply PyDateFacts.add_days_Some in Eadd. destruct Eadd as [-> _].
  cbv zeta. unfold bind.
  destruct (fetch_cdec k cur (Z.min (cur + cd) hi) tr) as [[df| |] tr1] eqn:Ef;
    try (intros E; discriminate E).
  apply fetch_cdec_Ok in Ef. destruct Ef as [Hans ->].
  destruct (PyDate.add_days (Z.min (cur + cd) hi) 1) as [cur'|] eqn:Eadd;
    [|intros E; discriminate E].
  apply PyDateFacts.add_days_Some in Eadd. destruct Eadd as [-> _].
  intros E. apply IH in E. destruct E as [ws [-> [-> Hws]]].
  assert (Hdf : frame_of k (cur, Z.min (cur + cd) hi) = df).
  { destruct Hans as [data [Hsvc Hc]]. unfold frame_of. cbn [fst snd].
    now rewrite Hsvc, Hc. }
  exists ((cur, Z.min (cur + cd) hi) :: ws). cbn [map]. rewrite Hdf.
  split; [now rewrite <- app_assoc|]. split; [now rewrite <- app_assoc|].
  constructor.
  - cbn [fst snd]. rewrite Hdf. split; [exact Hans|]. split; lia.
  - eapply Forall_impl; [|exact Hws]. cbn beta. intros w [Hw [Hhi Hlo]].
    split; [exact Hw|]. split; [exact Hhi|]. intros Hcd. specialize (Hlo Hcd). lia.
Qed.

Lemma In_merge_frames (frames : list frame) (r : row) :
  In r (merge_frames frames) -> exists df, In df frames /\ In r df.
Proof.
  rewrite merge_frames_eq, sort_values_In. intros Hin.
  apply (drop_seen_keys datetime (List.concat frames) []) in Hin.
  destruct Hin as [Hin _]. apply in_concat in Hin. exact Hin.
Qed.

(** X10. Every row of a frame [fetch_all_in_chunks] returns was brought
  back by one of its own requests and passed cleaning: its value is a
  number and not the sentinel -9999.  If the service keeps to the window
  and [chunk_days >= 0], every row is dated within [start .. end]. *)
Theorem fetch_all_in_chunks_rows (fuel : nat) (k : key) (start_date end_date chunk_days : Z)
    (tr tr' : list request) (out : frame) :
  fetch_all_in_chunks fuel k start_date end_date chunk_days tr = (Ok out, tr') ->
  exists ws,
    tr' = tr ++ map (request_of k) ws
    /\ Forall (fun r => PrimFloat.is_nan (value r) = false
                        /\ PrimFloat.eqb (value r) SENTINEL = false
                        /\ exists w, In w ws /\ In r (frame_of k w)) out
    /\ (answers_in_window k -> 0 <= chunk_days ->
        Forall (fun r => start_date <= ts_date (datetime r) <= end_date) out).
Proof.
  intros Hrun. apply fetch_all_in_chunks_Ok in Hrun. destruct Hrun as [frames [Hloop ->]].
  apply chunk_loop_frames in Hloop. destruct Hloop as [ws [-> [-> Hws]]].
  cbn [app]. exists ws. split; [reflexivity|].
  rewrite Forall_forall in Hws.
  assert (Hsrc : forall r, In r (merge_frames (map (frame_of k) ws)) ->
            exists w, In w ws /\ In r (frame_of k w)).
  { intros r Hr. apply In_merge_frames in Hr. destruct Hr as [df [Hdf Hr]].
    apply in_map_iff in Hdf. destruct Hdf as [w [<- Hw]]. now exists w. }
  split.
  - apply Forall_forall. intros r Hr. destruct (Hsrc r Hr) as [w [Hw Hrw]].
    destruct (Hws w Hw) as [[data [Hsvc Hclean]] _].
    destruct (clean_values data _ r Hclean Hrw) as [Hnan Hsent].
    split; [exact Hnan|]. split; [exact Hsent|]. exists w. now split.
  - intros Hwin Hcd. apply Forall_forall. intros r Hr.
    destruct (Hsrc r Hr) as [w [Hw Hrw]].
    destruct (Hws w Hw) as [Hans [Hhi Hlo]]. specialize (Hlo Hcd).
    pose proof (Hwin _ _ _ _ Hans Hrw). lia.
Qed.

(** X11. The merge step is idempotent: merging a frame that is already a
  merge result returns it unchanged, so the series a collection returns is
  sorted and free of duplicates as it stands. *)
Theorem merge_frames_idempotent (frames : list frame) :
  merge_frames [merge_frames frames] = merge_frames frames.
Proof.
  apply (strict_ext datetime); try apply merge_frames_strict.
  intros t. rewrite merge_frames_first_at. cbn [List.concat]. now rewrite app_nil_r.
Qed.

(** X12. The order in which the per-window frames arrive does not matter
  as long as they agree wherever they overlap: if no two rows of the
  frames carry the same timestamp with different contents, merging the
  frames in any order gives the same series. *)
Theorem merge_frames_any_order (frames frames' : list frame) :
  Permutation frames frames' ->
  (forall r r', In r (List.concat frames) -> In r' (List.concat frames) ->
                datetime r = datetime r' -> r = r') ->
  merge_frames frames = merge_frames frames'.
Proof.
  intros Hperm Hagree.
  assert (Hin : forall r, In r (List.concat frames) <-> In r (List.concat frames')).
  { intros r. rewrite !in_concat. split; intros [df [Hdf Hr]]; exists df; split; auto;
      [apply (Permutation_in _ Hperm)|apply (Permutation_in _ (Permutation_sym Hperm))];
      exact Hdf. }
  apply (strict_ext datetime); try apply merge_frames_strict.
  intros t. rewrite !merge_frames_first_at.
  destruct (first_at datetime t (List.concat frames)) as [r|] eqn:E1;
    destruct (first_at datetime t (List.concat frames')) as [r'|] eqn:E2; try reflexivity.
  - apply first_at_Some in E1. apply first_at_Some in E2.
    destruct E1 as [H1 K1], E2 as [H2 K2]. f_equal.
    apply Hagree; [exact H1|now apply Hin|congruence].
  - apply first_at_Some in E1. destruct E1 as [H1 K1].
    exfalso. apply (first_at_None datetime t _ E2 r); [now apply Hin|exact K1].
  - apply first_at_Some in E2. destruct E2 as [H2 K2].
    exfalso. apply (first_at_None datetime t _ E1 r'); [now apply Hin|exact K2].
Qed.

End CollectorMore.

(** ** Cleaning, combining and exporting *)

Section ExportFacts.
Context `{W : World}.

Lemma combine_length (stage flow : frame) :
  NoDup (map datetime stage) -> NoDup (map datetime flow) ->
  List.length (combine stage flow) = List.length (join_keys stage flow).
Proof.
  intros Hs Hf. rewrite (Permutation_length (combine_keys stage flow Hs Hf)).
  apply length_map.
Qed.


Lemma strict_map_keys (l : frame) :
  StronglySorted (strictly_ascending datetime) l ->
  StronglySorted (strictly_ascending (fun t : Z => t)) (map datetime l).
Proof.
  induction 1 as [|a l Hs IH Hall]; cbn [map]; constructor; [exact IH|].
  rewrite Forall_forall in *. intros t Ht. apply in_map_iff in Ht.
  destruct Ht as [x [<- Hx]]. now apply Hall.
Qed.

Lemma strict_map_combined (f : row -> combined) (l : frame) :
  (forall r, c_datetime (f r) = datetime r) ->
  StronglySorted (strictly_ascending datetime) l ->
  StronglySorted (strictly_ascending c_datetime) (map f l).
Proof.
  intros Hf. induction 1 as [|a l Hs IH Hall]; cbn [map]; constructor; [exact IH|].
  rewrite Forall_forall in *. intros c Hc. apply in_map_iff in Hc.
  destruct Hc as [x [<- Hx]]. unfold strictly_ascending. rewrite !Hf. now apply Hall.
Qed.

(** X15. Combining a series with an empty one loses nothing: each reading
  gives one row, in the same order, with its own column filled and the
  other column absent. *)
Theorem combine_with_empty (series : frame) :
  StronglySorted (strictly_ascending datetime) series ->
  combine series [] = map (fun r => mkCombined (datetime r) (Some (value r)) None) series
  /\ combine [] series = map (fun r => mkCombined (datetime r) None (Some (value r))) series.
Proof.
  intros Hs. pose proof (strict_NoDup datetime _ Hs) as Hnd.
  assert (Hempty : NoDup (map datetime (@nil row))) by constructor.
  assert (Hk1 : join_keys series [] = map datetime series).
  { unfold join_keys. cbn [map]. rewrite app_nil_r.
    apply sort_drop_strict_id. now apply strict_map_keys. }
  assert (Hk2 : join_keys [] series = map datetime series).
  { unfold join_keys. cbn [map app]. apply sort_drop_strict_id. now apply strict_map_keys. }
  split; unfold combine; rewrite merge_outer_series by assumption.
  - rewrite Hk1, map_map.
    rewrite (map_ext_in _ (fun r => mkCombined (datetime r) (Some (value r)) None)).
    + apply sort_strict_id. now apply strict_map_combined.
    + intros r Hr. unfold joined. now rewrite (first_at_unique datetime series r Hnd Hr).
  - rewrite Hk2, map_map.
    rewrite (map_ext_in _ (fun r => mkCombined (datetime r) None (Some (value r)))).
    + apply sort_strict_id. now apply strict_map_combined.
    + intros r Hr. unfold joined. now rewrite (first_at_unique datetime series r Hnd Hr).
Qed.


(** X17. When sensor 1 (stage) has no data in any anchor year nor since
  2000, the export raises "No data found" after those nine requests:
  sensor 20 is never asked, whatever flow data exists. *)
Theorem export_needs_stage_data (fuel : nat) (station : string) (tr : list request) :
  (forall y, In y probe_years ->
     answers (mkKey station 1 "E") (PyDate.mk y 1 1) (PyDate.mk y 12 31) []) ->
  answers (mkKey station 1 "E") (PyDate.mk 2000 1 1) today [] ->
  export_station_all_time fuel station tr
  = (Raise NoDataFound,
     tr ++ map (year_request (mkKey station 1 "E")) probe_years
        ++ [(mkKey station 1 "E", PyDate.mk 2000 1 1, today)]).
Proof.
  intros Hempty Hfb. unfold export_station_all_time, find_earliest_date at 1, bind.
  rewrite (probe_all_empty _ probe_years tr Hempty).
  rewrite (fetch_cdec_answers _ _ _ []) by exact Hfb.
  now rewrite <- app_assoc.
Qed.

End ExportFacts.

(** ** The range of the day found *)

Module PyDateOrder.
Import PyDate.

Lemma year_bounds (d : date) :
  _days_before_year (year d) < d <= _days_before_year (year d + 1).
Proof.
  unfold _days_before_year, year, _DI400Y, _DI100Y, _DI4Y. cbv zeta.
  destruct (Z.eqb_spec ((d - 1) mod 146097 mod 36524 mod 1461 / 365) 4);
    destruct (Z.eqb_spec ((d - 1) mod 146097 / 36524) 4); cbn [orb];
    Z.div_mod_to_equations; lia.
Qed.

Lemma days_before_year_mono (y y' : Z) :
  y <= y' -> _days_before_year y <= _days_before_year y'.
Proof. unfold _days_before_year. cbv zeta. intros Hy. Z.div_mod_to_equations. lia. Qed.

(** A day on or after January 1 of year [y] has [.year >= y]. *)
Lemma year_from_jan1 (y : Z) (d : date) : mk y 1 1 <= d -> y <= year d.
Proof.
  rewrite PyDateFacts.mk_jan1. intros Hd.
  destruct (Z.le_gt_cases y (year d)) as [Hle|Hlt]; [exact Hle|].
  pose proof (year_bounds d) as [_ Hb].
  pose proof (days_before_year_mono (year d + 1) y). lia.
Qed.

End PyDateOrder.

Section FinderRange.
Context `{W : World}.

Lemma narrow_final_year (k : key) (fuel : nat) :
  forall y e tr d yf tr',
  1900 <= y -> narrow fuel k y e tr = (Ok (d, yf), tr') -> 1900 <= yf <= y.
Proof.
  induction fuel as [|fuel IH]; intros y e tr d yf tr' Hy; cbn [narrow];
    destruct (Z.gtb_spec y 1900) as [Hgt|Hle];
    try (unfold ret; intros E; inversion E; subst; lia);
    try (intros E; discriminate E).
  unfold bind.
  destruct (fetch_cdec k (PyDate.mk (y - 1) 1 1) (PyDate.mk (y - 1) 12 31) tr)
    as [[df| |] tr1]; try (intros E; discriminate E).
  destruct df as [|r rest].
  - unfold ret. intros E. inversion E; subst. lia.
  - intros E. apply IH in E; lia.
Qed.


End FinderRange.

(** * A small concrete environment for worked examples *)

Module Scenario.

(** Cells already recognisable as a timestamp or a number, and junk.  A
  timestamp string may end in a UTC offset, given in minutes; [ns] is the
  time the string shows. *)
Inductive toy_cell : Type :=
| Stamp (ns : Z)
| StampTz (ns : Z) (utcoffset : Z)
| Num (v : float)
| Junk.

Definition toy_stamp (c : toy_cell) : option Z :=
  match c with
  | Stamp ns => Some ns
  | StampTz ns _ => Some ns
  | _ => None
  end.

Definition utcoffsets (col : list toy_cell) : list Z :=
  flat_map (fun c => match c with StampTz _ off => [off] | _ => [] end) col.

Definition mixed_offsets (col : list toy_cell) : bool :=
  match utcoffsets col with
  | [] => false
  | off :: offs => negb (forallb (Z.eqb off) offs)
  end.

(** A column whose timestamps carry different UTC offsets is refused;
  otherwise every cell is read on its own. *)
Definition toy_to_datetime (col : list toy_cell) : option (list (option Z)) :=
  if mixed_offsets col then None else Some (map toy_stamp col).

Fixpoint insert_by {A : Type} (key : A -> Z) (r : A) (l : list A) : list A :=
  match l with
  | [] => [r]
  | x :: l' => if key r <=? key x then r :: l else x :: insert_by key r l'
  end.

(** Insertion sort: rows with equal keys keep their order. *)
Definition insertion_sort {A : Type} (key : A -> Z) (l : list A) : list A :=
  fold_right (insert_by key) [] l.

(** The keys with their positions. *)
Definition positions (keys : list Z) : list (Z * nat) :=
  List.combine keys (seq 0 (List.length keys)).

(** An indexer as a quicksort may give it: an array of up to 16 keys is
  sorted by insertion, which leaves equal keys in order; in a longer array
  equal keys come out in another order, here the reverse one. *)
Definition toy_argsort (keys : list Z) : list nat :=
  let ps := positions keys in
  map snd (insertion_sort fst (if (List.length keys <=? 16)%nat then ps else rev ps)).

Lemma toy_to_datetime_length (col : list toy_cell) (out : list (option Z)) :
  toy_to_datetime col = Some out -> List.length out = List.length col.
Proof.
  unfold toy_to_datetime. destruct (mixed_offsets col); [discriminate|].
  intros E. inversion E. apply length_map.
Qed.

Lemma insert_by_perm {A : Type} (key : A -> Z) (r : A) (l : list A) :
  Permutation (insert_by key r l) (r :: l).
Proof.
  induction l as [|x l IH]; simpl; [reflexivity|].
  destruct (key r <=? key x); [reflexivity|].
  rewrite IH. apply perm_swap.
Qed.

Lemma insertion_sort_perm {A : Type} (key : A -> Z) (l : list A) :
  Permutation (insertion_sort key l) l.
Proof.
  induction l as [|x l IH]; simpl; [constructor|].
  rewrite insert_by_perm. now constructor.
Qed.

Lemma insert_by_keys {A : Type} (key : A -> Z) (r : A) (l : list A) :
  Sorted Z.le (map key l) -> Sorted Z.le (map key (insert_by key r l)).
Proof.
  induction l as [|x l IH]; cbn [insert_by map]; intros Hs.
  - repeat constructor.
  - destruct (Z.leb_spec (key r) (key x)) as [Hle|Hgt]; cbn [map].
    + constructor; [exact Hs|]. now constructor.
    + inversion Hs as [|? ? Hs' Hhd]; subst.
      constructor; [now apply IH|].
      destruct l as [|y l]; cbn [insert_by map].
      * constructor. lia.
      * destruct (Z.leb_spec (key r) (key y)); cbn [map]; constructor; [lia|].
        now inversion Hhd.
Qed.

Lemma insertion_sort_keys {A : Type} (key : A -> Z) (l : list A) :
  Sorted Z.le (map key (insertion_sort key l)).
Proof.
  induction l as [|x l IH]; cbn [insertion_sort fold_right]; [constructor|].
  now apply insert_by_keys.
Qed.

Lemma combine_seq_snd (keys : list Z) (from : nat) :
  map snd (List.combine keys (seq from (List.length keys))) = seq from (List.length keys).
Proof.
  revert from. induction keys as [|k keys IH]; intros from; [reflexivity|].
  cbn [List.length seq List.combine map snd]. now rewrite IH.
Qed.

Lemma combine_seq_nth (pre keys : list Z) (k : Z) (i : nat) :
  In (k, i) (List.combine keys (seq (List.length pre) (List.length keys))) ->
  nth_error (pre ++ keys) i = Some k.
Proof.
  revert pre. induction keys as [|k0 keys IH]; intros pre; [intros []|].
  cbn [List.length seq List.combine In]. intros [E|Hin].
  - inversion E; subst. rewrite nth_error_app2, Nat.sub_diag by apply le_n. reflexivity.
  - specialize (IH (pre ++ [k0])). rewrite length_app, Nat.add_1_r, <- app_assoc in IH.
    now apply IH.
Qed.

Lemma take_positions (keys : list Z) (ps : list (Z * nat)) :
  (forall p, In p ps -> In p (positions keys)) ->
  take keys (map snd ps) = map fst ps.
Proof.
  induction ps as [|[k i] ps IH]; intros Hin; [reflexivity|].
  unfold take in *. cbn [map flat_map fst snd].
  assert (E : nth_error keys i = Some k)
    by (apply (combine_seq_nth [] keys k i), Hin; now left).
  rewrite E. cbn [app]. f_equal. apply IH. intros p Hp. apply Hin. now right.
Qed.

Lemma positions_order (keys : list Z) :
  Permutation (if (List.length keys <=? 16)%nat then positions keys else rev (positions keys))
    (positions keys).
Proof.
  destruct (List.length keys <=? 16)%nat; [reflexivity|].
  symmetry. apply Permutation_rev.
Qed.

Lemma toy_argsort_perm (keys : list Z) :
  Permutation (toy_argsort keys) (seq 0 (List.length keys)).
Proof.
  unfold toy_argsort. cbv zeta. rewrite <- (combine_seq_snd keys 0).
  apply Permutation_map. rewrite insertion_sort_perm. apply positions_order.
Qed.

Lemma toy_argsort_sorted (keys : list Z) : Sorted Z.le (take keys (toy_argsort keys)).
Proof.
  unfold toy_argsort. cbv zeta. rewrite take_positions.
  - apply insertion_sort_keys.
  - intros p Hp. eapply Permutation_in; [apply positions_order|].
    eapply Permutation_in; [apply insertion_sort_perm|exact Hp].
Qed.

#[export] Instance toy_pandas : Pandas := {
  cell := toy_cell;
  to_datetime := toy_to_datetime;
  to_datetime_length := toy_to_datetime_length;
  to_numeric c := match c with Num v => v | _ => PrimFloat.nan end;
  argsort := toy_argsort;
  argsort_perm := toy_argsort_perm;
  argsort_sorted := toy_argsort_sorted
}.

(** Midnight of a calendar day, as a timestamp. *)
Definition midnight (d : date) : Z := (d - EPOCH_ORDINAL) * NS_PER_DAY.

(** A well-formed reading taken at midnight of day [d]. *)
Definition reading (d : date) (v : float) : record :=
  mkRecord (Stamp (midnight d)) (Num v).

Definition lch : key := mkKey "LCH" 20 "E".

(** A service that holds a fixed archive of (day, value) readings and
  answers each window with the readings dated inside it, in archive order. *)
Definition archive_service (archive : list (date * float)) (_ : key) (s e : date)
  : response :=
  Payload (map (fun p => reading (fst p) (snd p))
               (filter (fun p => (s <=? fst p) && (fst p <=? e)) archive)).

Definition world_of (svc : key -> date -> date -> response) : World :=
  {| service := svc; today := PyDate.mk 2026 1 1 |}.

(** No data at all. *)
Definition world_empty : World := world_of (archive_service []).

(** A single reading, in a year that is no anchor. *)
Definition world_recent : World :=
  world_of (archive_service [(PyDate.mk 2005 5 5, 12%float)]).

(** Scenario B: one reading on March 1 of every year 1900..1969 and one on
  1970-06-01. *)
Definition mins_B (y : Z) : date :=
  if y =? 1970 then PyDate.mk 1970 6 1 else PyDate.mk y 3 1.

Definition archive_B : list (date * float) :=
  map (fun i => (mins_B (1900 + Z.of_nat i), 1%float)) (seq 0 71).

Definition world_B : World := world_of (archive_service archive_B).

(** Data in 1949 and 1950 only. *)
Definition archive_1949 : list (date * float) :=
  [(PyDate.mk 1950 7 4, 3%float); (PyDate.mk 1949 2 2, 4%float)].

Definition world_1949 : World := world_of (archive_service archive_1949).

Definition jan1 : date := PyDate.mk 2020 1 1.

(** A payload with a good row, a junk date, a junk value, a sentinel and an
  earlier good row. *)
Definition messy : list record :=
  [ reading (jan1 + 1) 5%float;
    mkRecord Junk (Num 1%float);
    mkRecord (Stamp (midnight jan1)) Junk;
    reading (jan1 + 2) SENTINEL;
    reading jan1 7%float ].

Definition world_messy : World := world_of (fun _ _ _ => Payload messy).

(** A payload of two good readings whose timestamps are written with
  different UTC offsets, +00:00 and -08:00. *)
Definition mixed : list record :=
  [ mkRecord (StampTz (midnight jan1) 0) (Num 1%float);
    mkRecord (StampTz (midnight (jan1 + 1)) (-480)) (Num 2%float) ].

Definition world_mixed : World := world_of (fun _ _ _ => Payload mixed).

(** A service that fails on every request for the year 1930 and has no data. *)
Definition world_flaky : World :=
  world_of (fun _ s _ => if PyDate.year s =? 1930 then Failed else Payload []).

(** A service without data that fails on the one request ending today. *)
Definition world_fallback_down : World :=
  world_of (fun _ _ e => if e =? PyDate.mk 2026 1 1 then Failed else Payload []).

(** A service that answers every window, whatever its dates, with the same
  reading of 1902-05-05. *)
Definition world_stray : World :=
  world_of (fun _ _ _ => Payload [reading (PyDate.mk 1902 5 5) 1%float]).

(** Two readings with the same timestamp in one payload. *)
Definition twice : list record := [reading jan1 1%float; reading jan1 2%float].

Definition world_twice : World := world_of (fun _ _ _ => Payload twice).

(** Three readings early in 2020. *)
Definition archive_2020 : list (date * float) :=
  [(jan1 + 45, 3%float); (jan1, 1%float); (jan1 + 10, 2%float)].

Definition world_2020 : World := world_of (archive_service archive_2020).

(** Sixteen different readings with the timestamp of 2020-01-01, and one
  reading the day after. *)
Definition archive_ties : list (date * float) :=
  map (fun v => (jan1, v))
    [1; 2; 3; 4; 5; 6; 7; 8; 9; 10; 11; 12; 13; 14; 15; 16]%float
  ++ [(jan1 + 1, 0%float)].

Definition world_ties : World := world_of (archive_service archive_ties).

(** The row a well-formed archive reading cleans to. *)
Definition row_of_reading (p : date * float) : row := mkRow (midnight (fst p)) (snd p).

(** No value of the archive is NaN or the sentinel. *)
Definition archive_ok (archive : list (date * float)) : bool :=
  forallb (fun p => notna (snd p) && negb (PrimFloat.eqb (snd p) SENTINEL)) archive.

End Scenario.

(** ** The archive service *)

Section ArchiveFacts.
Import Scenario.

Lemma ts_date_midnight (d : date) : ts_date (midnight d) = d.
Proof.
  unfold ts_date, midnight. rewrite Z.div_mul by (unfold NS_PER_DAY; lia). lia.
Qed.

(** The dates of a payload of archive readings carry no UTC offset, so
  each is read on its own. *)
Lemma archive_dates (l : list (date * float)) :
  to_datetime (map raw_date (map (fun p => reading (fst p) (snd p)) l))
  = Some (map (fun p => Some (midnight (fst p))) l).
Proof.
  cbn [to_datetime toy_pandas]. unfold toy_to_datetime, mixed_offsets.
  assert (Hoff : utcoffsets (map raw_date (map (fun p => reading (fst p) (snd p)) l)) = []).
  { unfold utcoffsets. induction l as [|p l IH]; [reflexivity|exact IH]. }
  rewrite Hoff. f_equal. rewrite !map_map. reflexivity.
Qed.

Lemma archive_steps (l : list (date * float)) :
  archive_ok l = true ->
  cleaning_steps_spec (map (fun p => Some (midnight (fst p))) l)
    (map (fun p => reading (fst p) (snd p)) l)
  = map row_of_reading l.
Proof.
  unfold archive_ok, cleaning_steps_spec, step_a.
  induction l as [|p l IH]; [reflexivity|].
  cbn [forallb]. intros Hok. apply andb_true_iff in Hok. destruct Hok as [Hp Hok].
  apply andb_true_iff in Hp. destruct Hp as [Hna Hns].
  unfold notna in Hna. apply negb_true_iff in Hna.
  cbn [map List.combine flat_map fst snd app].
  unfold step_b. cbn [flat_map]. fold (step_b (step_a
    (map (fun p => Some (midnight (fst p))) l) (map (fun p => reading (fst p) (snd p)) l))).
  cbn [snd fst reading raw_value to_numeric toy_pandas]. rewrite Hna. cbn [app].
  unfold step_c. cbn [filter value]. rewrite Hns.
  unfold row_of_reading at 1. f_equal. now apply IH.
Qed.

Lemma archive_cleaned_rows (l : list (date * float)) :
  archive_ok l = true ->
  cleaned_rows (map (fun p => reading (fst p) (snd p)) l) = Some (map row_of_reading l).
Proof.
  intros Hok. rewrite (cleaned_rows_spec _ _ (archive_dates l)).
  now rewrite archive_steps.
Qed.

(** The archive service answers every window with exactly the archive's
  readings inside it. *)
Lemma archive_serves (archive : list (date * float)) (k : key) :
  archive_ok archive = true ->
  serves (W := world_of (archive_service archive)) k (map row_of_reading archive).
Proof.
  intros Hok s e. eexists. split; [reflexivity|].
  rewrite archive_cleaned_rows.
  - f_equal. clear Hok. induction archive as [|p archive IH]; [reflexivity|].
    assert (Hwin : in_window s e (row_of_reading p)
                   = (s <=? @fst Z float p) && (@fst Z float p <=? e)).
    { unfold in_window, day_in, row_of_reading. cbn [datetime].
      now rewrite ts_date_midnight. }
    cbn [filter map]. rewrite Hwin.
    destruct ((s <=? @fst Z float p) && (@fst Z float p <=? e)); [|exact IH].
    cbn [map]. f_equal. exact IH.
  - unfold archive_ok in *. rewrite forallb_forall in *.
    intros p Hp. apply Hok. apply filter_In in Hp. tauto.
Qed.

(** The archive service keeps to the window. *)
Lemma archive_in_window (archive : list (date * float)) (k : key) :
  answers_in_window (W := world_of (archive_service archive)) k.
Proof.
  intros s e df r [data [Hsvc Hdf]] Hin. cbn in Hsvc. unfold archive_service in Hsvc.
  inversion Hsvc as [Hdata]. clear Hsvc.
  apply clean_Some in Hdf. destruct Hdf as [rows [-> [[_ ->]|[_ Hrows]]]];
    apply sort_values_In in Hin; [destruct Hin|].
  subst data. rewrite (cleaned_rows_spec _ _ (archive_dates _)) in Hrows.
  inversion Hrows; subst rows. apply In_spec_rows in Hin.
  destruct Hin as [i [rec [_ [Hts _]]]].
  rewrite nth_error_map in Hts.
  destruct (nth_error _ i) as [p|] eqn:Ep; [|discriminate].
  cbn [option_map] in Hts. injection Hts as Ets.
  apply nth_error_In, filter_In in Ep. destruct Ep as [_ Hp].
  apply andb_true_iff in Hp. destruct Hp as [Hlo Hhi].
  apply Z.leb_le in Hlo, Hhi. rewrite <- Ets, ts_date_midnight. now split.
Qed.

End ArchiveFacts.

(** ** Worked examples *)

Module Examples.
Import Scenario.

(** Two readings whose timestamps carry different UTC offsets: the fetch
  ends in the exception of [pd.to_datetime]. *)
Lemma fetch_cdec_cleaning_can_raise_witness :
  fetch_cdec (W := world_mixed) lch jan1 (jan1 + 1) []
  = (Raise ValueError, [(lch, jan1, jan1 + 1)]).
Proof.
  refine (proj1 (fetch_cdec_cleaning_can_raise (W := world_mixed) lch jan1 (jan1 + 1)
                   mixed [] eq_refl _ eq_refl)).
  discriminate.
Defined.

(** The messy payload: the two good rows come back, earliest first. *)
Lemma fetch_cdec_cleaned_frame_witness :
  exists out,
    fetch_cdec (W := world_messy) lch jan1 (jan1 + 2) [] = (Ok out, [(lch, jan1, jan1 + 2)])
    /\ Permutation out [mkRow (midnight (jan1 + 1)) 5%float; mkRow (midnight jan1) 7%float]
    /\ Sorted (ascending datetime) out.
Proof.
  destruct (fetch_cdec_cleaned_frame (W := world_messy) lch jan1 (jan1 + 2) messy
              [Some (midnight (jan1 + 1)); None; Some (midnight jan1);
               Some (midnight (jan1 + 2)); Some (midnight jan1)] [] eq_refl eq_refl)
    as [out [Hrun [_ [Hperm [_ Hsorted]]]]].
  exists out. split; [exact Hrun|]. split; [exact Hperm|exact Hsorted].
Defined.

Lemma all_anchors_empty (svc : key -> date -> date -> response) (k : key) :
  forallb (fun y => match svc k (PyDate.mk y 1 1) (PyDate.mk y 12 31) with
                    | Payload [] => true
                    | _ => false
                    end) probe_years = true ->
  forall y, In y probe_years ->
    answers (W := world_of svc) k (PyDate.mk y 1 1) (PyDate.mk y 12 31) [].
Proof.
  intros H y Hy. rewrite forallb_forall in H. specialize (H y Hy). cbn.
  destruct (svc k (PyDate.mk y 1 1) (PyDate.mk y 12 31)) as [|[|? ?]] eqn:E;
    try discriminate H.
  exists []. split; [exact E|reflexivity].
Qed.

(** The fallback in both its outcomes: no data at all, and a reading in
  2005 that no anchor year sees. *)
Lemma find_earliest_fallback_witness :
  find_earliest_date (W := world_empty) lch []
  = (Raise NoDataFound,
     map (year_request lch) probe_years ++ [(lch, PyDate.mk 2000 1 1, PyDate.mk 2026 1 1)])
  /\ find_earliest_date (W := world_recent) lch []
     = (Ok (PyDate.mk 2005 5 5),
        map (year_request lch) probe_years ++ [(lch, PyDate.mk 2000 1 1, PyDate.mk 2026 1 1)]).
Proof.
  split.
  - refine (proj1 (find_earliest_fallback (W := world_empty) lch [] []
                     (all_anchors_empty (archive_service []) lch eq_refl) _) eq_refl).
    exists []. split; reflexivity.
  - destruct (find_earliest_fallback (W := world_recent) lch []
                [mkRow (midnight (PyDate.mk 2005 5 5)) 12%float]
                (all_anchors_empty (archive_service [(PyDate.mk 2005 5 5, 12%float)])
                   lch eq_refl)) as [_ [H _]].
    + eexists. split; reflexivity.
    + destruct H as [d [Hrun [Hmin _]]]; [discriminate|].
      rewrite Hrun. vm_compute in Hmin. inversion Hmin. reflexivity.
Defined.

(** Scenario B on the code: the 1900 anchor answers, nothing is narrowed. *)
Lemma scenario_B_no_narrowing :
  min_date_isb (W := world_B) lch (PyDate.mk 1970 1 1) (PyDate.mk 1970 12 31)
    (PyDate.mk 1970 6 1) = true
  /\ forallb (fun y => min_date_isb (W := world_B) lch (PyDate.mk y 1 1) (PyDate.mk y 12 31)
                        (mins_B y) && (mins_B y <? mins_B (y + 1)))
       (map (fun i => 1900 + Z.of_nat i) (seq 0 70)) = true
  /\ find_earliest_date (W := world_B) lch []
     = (Ok (PyDate.mk 1900 3 1), [year_request lch 1900])
  /\ narrowing_iterations (W := world_B) lch [] <> 70%nat.
Proof.
  split; [vm_compute; reflexivity|].
  split; [vm_compute; reflexivity|].
  split; [vm_compute; reflexivity|].
  vm_compute. discriminate.
Qed.

Lemma find_earliest_all_years_back_witness :
  find_earliest_date (W := world_B) lch [] = (Ok (mins_B 1900), [year_request lch 1900])
  /\ narrowing_iterations (W := world_B) lch [] = 0%nat.
Proof.
  assert (Hdata : forall y, 1900 <= y <= 1970 ->
            exists df, answers (W := world_B) lch (PyDate.mk y 1 1) (PyDate.mk y 12 31) df
                       /\ min_date df = Some (mins_B y)).
  { intros y Hy. apply min_date_isb_true.
    apply (Z_range_forallb
             (fun y => min_date_isb (W := world_B) lch (PyDate.mk y 1 1) (PyDate.mk y 12 31)
                         (mins_B y)) 1900 71); [vm_compute; reflexivity|lia]. }
  assert (Hdec : forall y, 1900 <= y < 1970 -> mins_B y < mins_B (y + 1)).
  { intros y Hy. apply Z.ltb_lt.
    apply (Z_range_forallb (fun y => mins_B y <? mins_B (y + 1)) 1900 70);
      [vm_compute; reflexivity|lia]. }
  destruct (find_earliest_all_years_back (W := world_B) lch mins_B [] Hdata eq_refl Hdec)
    as [Hrun [Hit _]].
  - vm_compute. split; discriminate.
  - split; [exact Hrun|exact Hit].
Defined.

Lemma find_earliest_predecessor_empty_witness :
  exists tr'',
    [year_request lch 1900; year_request lch 1930; year_request lch 1950;
     year_request lch 1949; year_request lch 1948]
    = tr'' ++ [year_request lch 1948]
    /\ answers (W := world_1949) lch (PyDate.mk 1948 1 1) (PyDate.mk 1948 12 31) [].
Proof.
  refine (find_earliest_predecessor_empty (W := world_1949) lch []
            [year_request lch 1900; year_request lch 1930; year_request lch 1950]
            _ (PyDate.mk 1950 7 4) (PyDate.mk 1949 2 2)
            (archive_in_window _ lch) _ _ _).
  - vm_compute. reflexivity.
  - vm_compute. reflexivity.
  - vm_compute. reflexivity.
Defined.

(** A service whose readings stray from the window asked for: the 1900
  anchor brings back a reading of 1902, the loop then asks for 1901 and
  for 1900, both come back with that same reading, and 1902-05-05 is
  returned.  The last request was for 1900, not for 1901, and the year
  1901 was not found empty. *)
Lemma predecessor_year_not_found_empty :
  probe (W := world_stray) lch probe_years []
  = (Ok (Some (PyDate.mk 1902 5 5)), [year_request lch 1900])
  /\ find_earliest_date (W := world_stray) lch []
     = (Ok (PyDate.mk 1902 5 5),
        [year_request lch 1900; year_request lch 1901; year_request lch 1900])
  /\ 1900 < PyDate.year (PyDate.mk 1902 5 5)
  /\ ~ (exists tr'',
          [year_request lch 1900; year_request lch 1901; year_request lch 1900]
          = tr'' ++ [year_request lch (PyDate.year (PyDate.mk 1902 5 5) - 1)])
  /\ ~ answers (W := world_stray) lch (PyDate.mk 1901 1 1) (PyDate.mk 1901 12 31) [].
Proof.
  split; [vm_compute; reflexivity|]. split; [vm_compute; reflexivity|].
  split; [vm_compute; reflexivity|]. split.
  - intros [tr'' E].
    change [year_request lch 1900; year_request lch 1901; year_request lch 1900]
      with ([year_request lch 1900; year_request lch 1901] ++ [year_request lch 1900]) in E.
    apply app_inj_tail in E. destruct E as [_ E]. vm_compute in E. discriminate E.
  - intros [data [Hsvc Hclean]]. cbn in Hsvc. inversion Hsvc; subst data.
    vm_compute in Hclean. discriminate Hclean.
Qed.

(** One payload with a repeated timestamp: [fetch_cdec] returns both rows. *)
Lemma fetch_cdec_keeps_duplicates :
  fetch_cdec (W := world_twice) lch jan1 jan1 []
  = (Ok [mkRow (midnight jan1) 1%float; mkRow (midnight jan1) 2%float],
     [(lch, jan1, jan1)])
  /\ ~ NoDup (map datetime [mkRow (midnight jan1) 1%float; mkRow (midnight jan1) 2%float])
  /\ ~ StronglySorted (strictly_ascending datetime)
         [mkRow (midnight jan1) 1%float; mkRow (midnight jan1) 2%float].
Proof.
  split; [vm_compute; reflexivity|]. split.
  - intros Hnd. inversion Hnd as [|? ? Hin _]. apply Hin. now left.
  - intros Hs. inversion Hs as [|? ? _ Hall]. inversion Hall as [|? ? Hlt _].
    unfold strictly_ascending in Hlt. cbn in Hlt. lia.
Qed.

(** Two windows that both return the same rows: the collector keeps one of each. *)
Lemma collected_series_unique_witness :
  StronglySorted (strictly_ascending datetime)
    [mkRow (midnight jan1) 7%float; mkRow (midnight (jan1 + 1)) 5%float]
  /\ NoDup (map datetime [mkRow (midnight jan1) 7%float; mkRow (midnight (jan1 + 1)) 5%float]).
Proof.
  refine (let H := collected_series_unique (W := world_messy) 5 lch jan1 (jan1 + 40) 30 []
                     [(lch, jan1, jan1 + 30); (lch, jan1 + 31, jan1 + 40)]
                     [mkRow (midnight jan1) 7%float; mkRow (midnight (jan1 + 1)) 5%float] _
          in conj (proj1 (proj2 H)) (proj1 (proj2 (proj2 H)))).
  vm_compute. reflexivity.
Defined.



Lemma fetch_all_in_chunks_terminates_witness :
  exists out reqs,
    out <> OutOfFuel
    /\ (List.length reqs <= 61)%nat
    /\ StronglySorted (fun a b => req_start a < req_start b) reqs
    /\ forall fuel, (61 <= fuel)%nat ->
         fetch_all_in_chunks (W := world_2020) fuel lch jan1 (jan1 + 60) 30 []
         = (out, [] ++ reqs).
Proof.
  apply (fetch_all_in_chunks_terminates (W := world_2020) lch jan1 (jan1 + 60) 30 []).
  discriminate.
Defined.



Lemma archive_2020_one_reading :
  one_reading_per_timestamp (map row_of_reading archive_2020).
Proof.
  refine (NoDup_keys_agree datetime (map row_of_reading archive_2020) _). vm_compute.
  repeat (constructor; [cbn [In]; intros Hin; intuition discriminate|]). constructor.
Qed.




Lemma archive_answers (archive : list (date * float)) (k : key) (s e : date)
    (data : list record) (df : frame) :
  archive_service archive k s e = Payload data -> clean data = Some df ->
  answers (W := world_of (archive_service archive)) k s e df.
Proof. intros Hsvc Hdf. exists data. now split. Qed.

(** Anchors 1900 and 1930 empty, 1950 with data, 1949 with data, 1948 empty. *)
Lemma find_earliest_narrows_to_gap_witness :
  find_earliest_date (W := world_1949) lch []
  = (Ok (PyDate.mk 1949 2 2), map (year_request lch) [1900; 1930; 1950; 1949; 1948]).
Proof.
  refine (eq_trans
            (find_earliest_narrows_to_gap (W := world_1949) lch [1900; 1930]
               [1970; 1980; 1990; 2000; 2010] 1950
               [mkRow (midnight (PyDate.mk 1950 7 4)) 3%float] (PyDate.mk 1950 7 4)
               (fun _ => PyDate.mk 1949 2 2) 1 [] eq_refl _ _ eq_refl _ _ _) _).
  - intros y [<-|[<-|[]]]; (eapply archive_answers; vm_compute; reflexivity).
  - eapply archive_answers; vm_compute; reflexivity.
  - intros i Hi. assert (i = 1) by lia. subst i.
    exists [mkRow (midnight (PyDate.mk 1949 2 2)) 4%float].
    split; [eapply archive_answers; vm_compute; reflexivity|vm_compute; reflexivity].
  - eapply archive_answers; vm_compute; reflexivity.
  - vm_compute. reflexivity.
  - vm_compute. reflexivity.
Defined.

Lemma find_earliest_probe_failure_witness :
  find_earliest_date (W := world_flaky) lch []
  = (Raise FetchError, map (year_request lch) [1900; 1930])
  /\ find_earliest_date (W := world_fallback_down) lch []
     = (Raise FetchError,
        map (year_request lch) probe_years ++ [(lch, PyDate.mk 2000 1 1, PyDate.mk 2026 1 1)]).
Proof.
  split.
  - refine (proj1 (find_earliest_probe_failure (W := world_flaky) lch [])
              [1900] 1930 [1950; 1970; 1980; 1990; 2000; 2010] eq_refl _ eq_refl).
    intros y [<-|[]]. exists []. split; reflexivity.
  - refine (proj2 (find_earliest_probe_failure (W := world_fallback_down) lch []) _ eq_refl).
    intros y Hy. exists []. split; [|reflexivity].
    repeat (destruct Hy as [<-|Hy]; [reflexivity|]). destruct Hy.
Defined.

Lemma find_earliest_request_bound_witness :
  exists reqs,
    snd (find_earliest_date (W := world_1949) lch []) = [] ++ reqs
    /\ (List.length reqs <= 118)%nat.
Proof.
  apply (find_earliest_request_bound (W := world_1949) lch []).
  apply (archive_in_window _ lch).
Defined.

Lemma find_earliest_returns_observed_witness :
  exists reqs s e df,
    map (year_request lch) [1900; 1930; 1950; 1949; 1948] = [] ++ reqs
    /\ In (lch, s, e) reqs
    /\ answers (W := world_1949) lch s e df
    /\ min_date df = Some (PyDate.mk 1949 2 2)
    /\ is_min_date df (PyDate.mk 1949 2 2).
Proof.
  apply (find_earliest_returns_observed (W := world_1949) lch []).
  vm_compute. reflexivity.
Defined.



Lemma fetch_all_in_chunks_rows_witness :
  exists ws,
    [(lch, jan1, jan1 + 30); (lch, jan1 + 31, jan1 + 59)] = [] ++ map (request_of lch) ws
    /\ Forall (fun r => PrimFloat.is_nan (value r) = false
                        /\ PrimFloat.eqb (value r) SENTINEL = false
                        /\ exists w, In w ws /\ In r (frame_of (W := world_2020) lch w))
         [mkRow (midnight jan1) 1%float; mkRow (midnight (jan1 + 10)) 2%float;
          mkRow (midnight (jan1 + 45)) 3%float].
Proof.
  destruct (fetch_all_in_chunks_rows (W := world_2020) 60 lch jan1 (jan1 + 59) 30 []
              [(lch, jan1, jan1 + 30); (lch, jan1 + 31, jan1 + 59)]
              [mkRow (midnight jan1) 1%float; mkRow (midnight (jan1 + 10)) 2%float;
               mkRow (midnight (jan1 + 45)) 3%float]) as [ws [Htr [Hrows _]]].
  - vm_compute. reflexivity.
  - exists ws. now split.
Defined.

Lemma merge_frames_any_order_witness :
  merge_frames [[mkRow (midnight jan1) 1%float]; [mkRow (midnight (jan1 + 1)) 2%float]]
  = merge_frames [[mkRow (midnight (jan1 + 1)) 2%float]; [mkRow (midnight jan1) 1%float]].
Proof.
  apply merge_frames_any_order; [apply perm_swap|].
  intros r r' [<-|[<-|[]]] [<-|[<-|[]]] E; try reflexivity; vm_compute in E; discriminate E.
Defined.


Lemma combine_with_empty_witness :
  combine [mkRow (midnight jan1) 5%float; mkRow (midnight (jan1 + 1)) 6%float] []
  = [mkCombined (midnight jan1) (Some 5%float) None;
     mkCombined (midnight (jan1 + 1)) (Some 6%float) None].
Proof.
  refine (proj1 (combine_with_empty
                   [mkRow (midnight jan1) 5%float; mkRow (midnight (jan1 + 1)) 6%float] _)).
  repeat constructor.
Defined.

Definition lch_stage : key := mkKey "LCH" 1 "E".
Definition lch_flow : key := mkKey "LCH" 20 "E".


Lemma export_needs_stage_data_witness :
  export_station_all_time (W := world_empty) 5 "LCH" []
  = (Raise NoDataFound,
     map (year_request lch_stage) probe_years
     ++ [(lch_stage, PyDate.mk 2000 1 1, PyDate.mk 2026 1 1)]).
Proof.
  apply (export_needs_stage_data (W := world_empty) 5 "LCH" []).
  - apply (all_anchors_empty (archive_service []) lch_stage). reflexivity.
  - exists []. split; reflexivity.
Defined.


End Examples.
